(** * Jotter: stroke classification and canvas reconciliation

    A shallow embedding of the web canvas of Jotter.  The repository holds
    several successive versions of the same component:
    - [Heuristic]: the heuristic-only web canvas of [src/Jotter/GridCanvas.js]
      (lines 216-599), with corner detection and a circularity test;
    - [OpenCV]: the final OpenCV canvas of [src/unnamed/part_003]
      (lines 463-1021), whose fallback predicates are the ones also found in
      [src/unnamed/part_002] and the first half of [part_003];
    - [OpenCVFallback]: the orchestrator of [src/unnamed/part_002]
      (lines 261-329), which routes to [detectShapeFallback] when OpenCV is not
      loaded.

    JavaScript numbers are modelled as real numbers.  A division whose result
    is only compared ([ratio], [aspectRatio], [circularity]) returns an
    IEEE-like value [num] (finite, infinities or NaN), so that a division by
    zero behaves as in JavaScript.  Every division is recorded, with its
    divisor, in a small writer monad [W]. *)

From Stdlib Require Import Reals Lra Lia List Bool Arith ZArith.
From Stdlib Require Import Strings.String.
Abbreviation length := Datatypes.length (only parsing).
Import ListNotations.
Open Scope R_scope.

(** ** JavaScript numbers produced by a division *)

Inductive num : Type :=
| Fin (r : R)
| PInf
| NInf
| NaN.

Definition Rltb (a b : R) : bool := if Rlt_dec a b then true else false.
Definition Reqb (a b : R) : bool := if Req_EM_T a b then true else false.

(** [a / b] with IEEE semantics for a zero divisor. *)
Definition js_div (a b : R) : num :=
  if Req_EM_T b 0 then
    if Rlt_dec 0 a then PInf else if Rlt_dec a 0 then NInf else NaN
  else Fin (a / b).

(** [v > c] and [v < c] for a finite constant [c]; NaN compares false. *)
Definition num_gt (v : num) (c : R) : bool :=
  match v with
  | Fin r => Rltb c r
  | PInf => true
  | NInf | NaN => false
  end.

Definition num_lt (v : num) (c : R) : bool :=
  match v with
  | Fin r => Rltb r c
  | NInf => true
  | PInf | NaN => false
  end.

(** ** A writer monad recording the divisor of every division *)

Definition W (A : Type) : Type := (list R * A)%type.

Definition ret {A} (a : A) : W A := ([], a).

Definition bind {A B} (m : W A) (f : A -> W B) : W B :=
  let '(l1, a) := m in
  let '(l2, b) := f a in
  (l1 ++ l2, b).

Notation "x <- m ;; k" := (bind m (fun x => k))
  (at level 61, m at next level, right associativity).

(** Division whose result is compared: JavaScript semantics. *)
Definition divJ (a b : R) : W num := ([b], js_div a b).

(** Division by a stroke length (the callers only reach it on non-empty
    strokes, where it agrees with JavaScript). *)
Definition divR (a b : R) : W R := ([b], a / b).

Definition divisors {A} (m : W A) : list R := fst m.
Definition val {A} (m : W A) : A := snd m.

(** ** Geometry utilities (identical in every version)

    Numbers are exact reals: the sums, quotients and square roots below are
    not rounded to doubles as JavaScript rounds them, so an identity that
    rounding breaks (the order of a sum, a mean lying between the values)
    is a fact of this model only. *)

Record point : Type := Pt { x : R; y : R }.

Definition origin : point := Pt 0 0.

(** [stroke[0]] and [stroke[stroke.length-1]]; on an empty stroke JavaScript
    reads [undefined], which no caller reaches. *)
Definition first (s : list point) : point := nth 0 s origin.
Definition last_pt (s : list point) : point := last s origin.

(** [Math.sqrt(Math.pow(p2.x - p1.x, 2) + Math.pow(p2.y - p1.y, 2))] *)
Definition distance (point1 point2 : point) : R :=
  sqrt ((x point2 - x point1) ^ 2 + (y point2 - y point1) ^ 2).

(** [for (i = 1; i < stroke.length; i++) total += distance(stroke[i-1], stroke[i])] *)
Fixpoint calculateTotalDistance (stroke : list point) : R :=
  match stroke with
  | p :: ((q :: _) as rest) => distance p q + calculateTotalDistance rest
  | _ => 0
  end.

(** [Math.min(...xs)] and [Math.max(...xs)] on a non-empty list. *)
Definition list_min (l : list R) : R :=
  match l with [] => 0 | h :: t => fold_left Rmin t h end.
Definition list_max (l : list R) : R :=
  match l with [] => 0 | h :: t => fold_left Rmax t h end.

Record bbox : Type := BBox {
  minX : R; maxX : R; minY : R; maxY : R; bwidth : R; bheight : R }.

Definition getBoundingBox (stroke : list point) : bbox :=
  let xs := map x stroke in
  let ys := map y stroke in
  BBox (list_min xs) (list_max xs) (list_min ys) (list_max ys)
       (list_max xs - list_min xs) (list_max ys - list_min ys).

Definition sumR (l : list R) : R := fold_left Rplus l 0.

Definition calculateCenter (stroke : list point) : W point :=
  let sumX := sumR (map x stroke) in
  let sumY := sumR (map y stroke) in
  cx <- divR sumX (INR (length stroke)) ;;
  cy <- divR sumY (INR (length stroke)) ;;
  ret (Pt cx cy).

Definition average (values : list R) : W R :=
  divR (sumR values) (INR (length values)).

Definition calculateVariance (values : list R) : W R :=
  mean <- divR (sumR values) (INR (length values)) ;;
  let squaredDiffs := map (fun v => (v - mean) ^ 2) values in
  divR (sumR squaredDiffs) (INR (length values)).

Definition THRESHOLD : R := 10.

(** [isLine], the same text in every version. *)
Definition isLine (stroke : list point) : W bool :=
  if (length stroke <? 2)%nat then ret false else
  let straightDistance := distance (first stroke) (last_pt stroke) in
  let totalDistance := calculateTotalDistance stroke in
  if Req_EM_T totalDistance 0 then ret false else
  ratio <- divJ straightDistance totalDistance ;;
  ret (num_gt ratio (9 / 10)).

(** The shape kinds named by the [type] strings of the source. *)
Inductive shape_type : Type :=
| TLine | TRectangle | TSquare | TCircle | TTriangle | TArrow | TFreehand | TUnknown.

(** ** The heuristic-only web canvas ([src/Jotter/GridCanvas.js], 216-599) *)
Module Heuristic.

(** [Math.atan2(yv, xv)] (signed zeros are not modelled: [atan2(0, xv)] is
    [PI] for a negative [xv]). *)
Definition atan2 (yv xv : R) : R :=
  if Rlt_dec 0 xv then atan (yv / xv)
  else if Rlt_dec xv 0 then
    (if Rle_dec 0 yv then atan (yv / xv) + PI else atan (yv / xv) - PI)
  else if Rlt_dec 0 yv then PI / 2
  else if Rlt_dec yv 0 then - (PI / 2)
  else 0.

(** [findCorners]: every interior point whose turning angle
    [Math.abs(angle1 - angle2)] exceeds [Math.PI / 6], in stroke order. *)
Fixpoint findCorners (stroke : list point) : list point :=
  match stroke with
  | prev :: ((curr :: next :: _) as rest) =>
      let angle1 := atan2 (y curr - y prev) (x curr - x prev) in
      let angle2 := atan2 (y next - y curr) (x next - x curr) in
      let angleDiff := Rabs (angle1 - angle2) in
      (if Rltb (PI / 6) angleDiff then [curr] else []) ++ findCorners rest
  | _ => []
  end.

Definition isTriangle (stroke : list point) : bool :=
  (3 <=? length (findCorners stroke))%nat.

Definition isRectangle (stroke : list point) : W bool :=
  if (length stroke <? 4)%nat then ret false else
  let startEndDistance := distance (first stroke) (last_pt stroke) in
  let isClosed := Rltb startEndDistance THRESHOLD in
  if negb isClosed then ret false else
  let bounds := getBoundingBox stroke in
  aspectRatio <- divJ (bwidth bounds) (bheight bounds) ;;
  let corners := findCorners stroke in
  let hasCorners := (2 <=? length corners)%nat in
  let reasonableAspectRatio :=
    num_gt aspectRatio (2 / 10) && num_lt aspectRatio 5 in
  ret (isClosed && hasCorners && reasonableAspectRatio).

Definition isCircle (stroke : list point) : W bool :=
  if (length stroke <? 6)%nat then ret false else
  let startEndDistance := distance (first stroke) (last_pt stroke) in
  let isClosed := Rltb startEndDistance THRESHOLD in
  if negb isClosed then ret false else
  center <- calculateCenter stroke ;;
  let distances := map (fun p => distance center p) stroke in
  averageRadius <- average distances ;;
  if Req_EM_T averageRadius 0 then ret false else
  variance <- calculateVariance distances ;;
  circularity <- divJ variance averageRadius ;;
  let bounds := getBoundingBox stroke in
  aspectRatio <- divJ (bwidth bounds) (bheight bounds) ;;
  let isRoughlySquare := num_gt aspectRatio (1 / 2) && num_lt aspectRatio 2 in
  let isCircular := num_lt circularity (1 / 2) in
  ret (isClosed && isCircular && isRoughlySquare).

(** The double nearest to [0.7] is [POINT_SEVEN / 2^52]. *)
Definition POINT_SEVEN : Z := 3152519739159347%Z.

(** [Math.floor(n * 0.7)] in IEEE double arithmetic: the exact product
    [n * POINT_SEVEN / 2^52] is rounded to 53 significant bits (to nearest,
    ties to even), then floored.  It differs from [7n/10] at n = 90, 170,
    180, ... where the product rounds just below an integer. *)
Definition floor_times_07 (n : nat) : nat :=
  (let P := Z.of_nat n * POINT_SEVEN in
   let b := Z.log2 P in
   if b <=? 52 then Z.to_nat (Z.shiftr P 52)
   else
     let s := b - 52 in
     let q := Z.shiftr P s in
     let r := P - Z.shiftl q s in
     let half := Z.shiftl 1 (s - 1) in
     let q' := if half <? r then q + 1
               else if r =? half then (if Z.odd q then q + 1 else q) else q in
     Z.to_nat (Z.shiftr (Z.shiftl q' s) 52))%Z.

(** [isArrow]: shaft = first [Math.floor(length * 0.7)] points. *)
Definition isArrow (stroke : list point) : W bool :=
  if (length stroke <? 6)%nat then ret false else
  let shaftEnd := floor_times_07 (length stroke) in
  let shaft := firstn shaftEnd stroke in
  let head := skipn shaftEnd stroke in
  shaftIsLine <- isLine shaft ;;
  ret (shaftIsLine && isTriangle head).

(** [detectShape]: line, circle, rectangle, arrow, first match wins. *)
Definition detectShape (stroke : list point) : shape_type :=
  if val (isLine stroke) then TLine
  else if val (isCircle stroke) then TCircle
  else if val (isRectangle stroke) then TRectangle
  else if val (isArrow stroke) then TArrow
  else TFreehand.

End Heuristic.

(** ** Fallback predicates of the OpenCV canvas
    ([src/unnamed/part_003] 681-719; the same text in [part_002] 155-188 and
    [part_003] 148-181): no corner test and no circularity test. *)
Module OpenCVHeuristic.

Definition isRectangle (stroke : list point) : W bool :=
  if (length stroke <? 4)%nat then ret false else
  let startEndDistance := distance (first stroke) (last_pt stroke) in
  let isClosed := Rltb startEndDistance THRESHOLD in
  if negb isClosed then ret false else
  let bounds := getBoundingBox stroke in
  aspectRatio <- divJ (bwidth bounds) (bheight bounds) ;;
  ret (isClosed && num_gt aspectRatio (2 / 10) && num_lt aspectRatio 5).

Definition isCircle (stroke : list point) : W bool :=
  if (length stroke <? 6)%nat then ret false else
  let startEndDistance := distance (first stroke) (last_pt stroke) in
  let isClosed := Rltb startEndDistance THRESHOLD in
  if negb isClosed then ret false else
  center <- calculateCenter stroke ;;
  let distances := map (fun p => distance center p) stroke in
  averageRadius <- average distances ;;
  if Req_EM_T averageRadius 0 then ret false else
  let bounds := getBoundingBox stroke in
  aspectRatio <- divJ (bwidth bounds) (bheight bounds) ;;
  let isRoughlySquare := num_gt aspectRatio (1 / 2) && num_lt aspectRatio 2 in
  ret (isClosed && isRoughlySquare).

End OpenCVHeuristic.

(** ** The final OpenCV canvas ([src/unnamed/part_003], 463-1021) *)

(** OpenCV's [Rect]. *)
Record cvRect : Type := CvRect { rx : R; ry : R; rwidth : R; rheight : R }.

(** The shape objects built by the source, one constructor per object
    literal: [{type:'line', stroke}], the three results of [classifyShape],
    the fallback rectangle [{type:'rectangle', boundingRect}] of [part_002],
    [{type:'freehand'}] and [{type:'unknown'}]. *)
Inductive shape : Type :=
| SLine (stroke : list point)
| STriangle (vertices : list point)
| SRectangle (vertices : list point) (boundingRect : cvRect)
| SCircle (center : point) (radius : R)
| SRectangleBounds (boundingRect : bbox)
| SFreehand
| SUnknown.

Definition type_of (s : shape) : shape_type :=
  match s with
  | SLine _ => TLine
  | STriangle _ => TTriangle
  | SRectangle _ _ | SRectangleBounds _ => TRectangle
  | SCircle _ _ => TCircle
  | SFreehand => TFreehand
  | SUnknown => TUnknown
  end.

Definition shape_type_eqb (a b : shape_type) : bool :=
  match a, b with
  | TLine, TLine | TRectangle, TRectangle | TSquare, TSquare
  | TCircle, TCircle | TTriangle, TTriangle | TArrow, TArrow
  | TFreehand, TFreehand | TUnknown, TUnknown => true
  | _, _ => false
  end.

Definition not_freehand (sh : shape) : bool :=
  negb (shape_type_eqb (type_of sh) TFreehand).

(** The contour-tracing collaborator (OpenCV.js), over its contour type.
    [findContours] stands for the whole pipeline of [detectShapes] on the
    temporary canvas holding the stroke: [canvasToMat], grayscale, inverted
    Otsu threshold, external contours.  [approxPolyDP] returns the vertices
    read back by [getVertices]. *)
Record OpenCVLib (Contour : Type) : Type := {
  findContours : list point -> list Contour;
  arcLength : Contour -> R;
  approxPolyDP : Contour -> R -> list point;
  contourArea : Contour -> R;
  boundingRect : Contour -> cvRect;
  minEnclosingCircle : Contour -> point * R
}.
Arguments findContours {Contour}.
Arguments arcLength {Contour}.
Arguments approxPolyDP {Contour}.
Arguments contourArea {Contour}.
Arguments boundingRect {Contour}.
Arguments minEnclosingCircle {Contour}.

(** Canvas rendering calls. *)
Inductive op : Type :=
| SetStrokeStyle (color : String.string)
| SetLineWidth (w : R)
| ClearRect (x0 y0 w h : R)
| BeginPath
| MoveTo (p : point)
| LineTo (p : point)
| ClosePath
| Arc (c : point) (r : R)
| StrokeOp.

Definition red : String.string := "#ff0000"%string.
Definition black : String.string := "#000000"%string.
Definition gridColor : String.string := "#f0f0f0"%string.

Definition GRID_SIZE : nat := 40.

Module OpenCV.
Section WithCanvas.

(** [Dimensions.get('window')] *)
Variables width height : nat.
Variable Contour : Type.

Definition classifyShape (cv : OpenCVLib Contour) (contour : Contour) : shape :=
  let perimeter := arcLength cv contour in
  let approx := approxPolyDP cv contour (2 / 100 * perimeter) in
  let verticesCount := length approx in
  let area := contourArea cv contour in
  let br := boundingRect cv contour in
  if (verticesCount =? 3)%nat then STriangle approx
  else if (verticesCount =? 4)%nat then SRectangle approx br
  else
    let circularity := js_div (4 * PI * area) (perimeter * perimeter) in
    if num_gt circularity (85 / 100) then
      let '(c, r) := minEnclosingCircle cv contour in SCircle c r
    else SUnknown.

(** [detectShapes]: [None] is OpenCV not loaded, where the first use of
    [cv] throws and the [catch] returns [[]]. *)
Definition detectShapes (cv : option (OpenCVLib Contour)) (stroke : list point)
  : list shape :=
  match cv with
  | None => []
  | Some lib =>
      filter (fun s => negb (shape_type_eqb (type_of s) TUnknown))
        (map (classifyShape lib) (findContours lib stroke))
  end.

(** [detectShape] (810-861).  When [opencvLoaded] is false the source only
    logs a message and goes on with the OpenCV path. *)
Definition detectShape (opencvLoaded : bool) (cv : option (OpenCVLib Contour))
    (stroke : list point) : shape :=
  if val (isLine stroke) then SLine stroke
  else
    match detectShapes cv stroke with
    | detected :: _ => detected
    | [] => SFreehand
    end.

Definition gridLines (n : nat) : list R :=
  map (fun k => INR (GRID_SIZE * k)) (seq 0 (n / GRID_SIZE + 1)).

(** [drawGrid]: [for (x = 0; x <= width; x += GRID_SIZE)] and the same for
    [y]. *)
Definition drawGrid : list op :=
  [SetStrokeStyle gridColor; SetLineWidth (1 / 2)] ++
  flat_map (fun gx => [BeginPath; MoveTo (Pt gx 0); LineTo (Pt gx (INR height)); StrokeOp])
    (gridLines width) ++
  flat_map (fun gy => [BeginPath; MoveTo (Pt 0 gy); LineTo (Pt (INR width) gy); StrokeOp])
    (gridLines height) ++
  [SetStrokeStyle black; SetLineWidth 2].

Definition polygon (vertices : list point) : list op :=
  match vertices with
  | v0 :: rest => MoveTo v0 :: map LineTo rest ++ [ClosePath]
  | [] => [] (* [vertices[0]] undefined; [classifyShape] never builds it *)
  end.

(** [drawCleanShape] (890-930). *)
Definition drawCleanShape (sh : shape) : list op :=
  [SetStrokeStyle red; SetLineWidth 3; BeginPath] ++
  match sh with
  | SLine st => [MoveTo (first st); LineTo (last_pt st)]
  | SRectangle vs _ => polygon vs
  | SCircle c r => [Arc c r]
  | STriangle vs => polygon vs
  | _ => []
  end ++
  [StrokeOp; SetStrokeStyle black; SetLineWidth 2].

(** [drawRecognizedShape] (870-884): [recognizedShapes] is the ledger as it
    stands before the new shape is appended. *)
Definition drawRecognizedShape (recognizedShapes : list shape) (newShape : shape)
  : list op :=
  [ClearRect 0 0 (INR width) (INR height)] ++ drawGrid ++
  flat_map drawCleanShape recognizedShapes ++ drawCleanShape newShape.

Record state : Type := State {
  isDrawing : bool;
  currentStroke : list point;
  recognizedShapes : list shape;
  ops : list op
}.

Definition handleMouseDown (pos : point) (st : state) : state :=
  State true [pos] (recognizedShapes st) (ops st ++ [BeginPath; MoveTo pos]).

Definition handleMouseMove (pos : point) (st : state) : state :=
  if isDrawing st then
    State true (currentStroke st ++ [pos]) (recognizedShapes st)
      (ops st ++ [LineTo pos; StrokeOp])
  else st.

(** [handleMouseUp] (959-972) under the collaborator state of the moment. *)
Definition handleMouseUp (opencvLoaded : bool) (cv : option (OpenCVLib Contour))
    (st : state) : state :=
  let st' :=
    if isDrawing st && (1 <? length (currentStroke st))%nat then
      let detectedShape := detectShape opencvLoaded cv (currentStroke st) in
      if negb (shape_type_eqb (type_of detectedShape) TFreehand) then
        State (isDrawing st) (currentStroke st)
          (recognizedShapes st ++ [detectedShape])
          (ops st ++ drawRecognizedShape (recognizedShapes st) detectedShape)
      else st
    else st in
  State false [] (recognizedShapes st') (ops st').

Definition handleMouseLeave (st : state) : state :=
  State false [] (recognizedShapes st) (ops st).

(** One press-drag-release gesture delivering the points of [stroke]. *)
Definition drawStroke (opencvLoaded : bool) (cv : option (OpenCVLib Contour))
    (stroke : list point) (st : state) : state :=
  match stroke with
  | [] => st
  | p :: ps =>
      handleMouseUp opencvLoaded cv
        (fold_left (fun s q => handleMouseMove q s) ps (handleMouseDown p st))
  end.

(** A session: one gesture per entry, each with the collaborator state of
    its release. *)
Fixpoint drawStrokes (gestures : list (bool * option (OpenCVLib Contour) * list point))
    (st : state) : state :=
  match gestures with
  | [] => st
  | (loaded, cv, s) :: rest => drawStrokes rest (drawStroke loaded cv s st)
  end.

End WithCanvas.

Arguments classifyShape {Contour}.
Arguments detectShapes {Contour}.
Arguments detectShape {Contour}.
Arguments handleMouseUp width height {Contour}.
Arguments drawStroke width height {Contour}.
Arguments drawStrokes width height {Contour}.

End OpenCV.

(** ** The orchestrator of [src/unnamed/part_002] (261-329) *)
Module OpenCVFallback.

Definition detectShapeFallback (stroke : list point) : shape :=
  if val (OpenCVHeuristic.isRectangle stroke) then
    SRectangleBounds (getBoundingBox stroke)
  else if val (OpenCVHeuristic.isCircle stroke) then
    let center := val (calculateCenter stroke) in
    let radius := val (average (map (fun p => distance center p) stroke)) in
    SCircle center radius
  else SFreehand.

Definition detectShape {Contour} (opencvLoaded : bool)
    (cv : option (OpenCVLib Contour)) (stroke : list point) : shape :=
  if val (isLine stroke) then SLine stroke
  else if negb opencvLoaded then detectShapeFallback stroke
  else
    match OpenCV.detectShapes cv stroke with
    | detected :: _ => detected
    | [] => SFreehand
    end.

End OpenCVFallback.

(** ** The component of the heuristic-only canvas
    ([src/Jotter/GridCanvas.js], 412-598) *)
Module HeuristicCanvas.

(** Its rendering calls: those of [op] and [ctx.strokeRect]. *)
Inductive hop : Type :=
| HOp (o : op)
| StrokeRect (x0 y0 w h : R).

(** [drawRecognizedShape(shape, stroke)] (494-537). *)
Definition drawRecognizedShape (shape : shape_type) (stroke : list point) : list hop :=
  map HOp [SetStrokeStyle red; SetLineWidth 3] ++
  match shape with
  | TLine =>
      map HOp [BeginPath; MoveTo (first stroke); LineTo (last_pt stroke); StrokeOp]
  | TRectangle =>
      let bounds := getBoundingBox stroke in
      [StrokeRect (minX bounds) (minY bounds) (bwidth bounds) (bheight bounds)]
  | TCircle =>
      let center := val (calculateCenter stroke) in
      let radius := val (average (map (fun p => distance center p) stroke)) in
      map HOp [BeginPath; Arc center radius; StrokeOp]
  | TArrow =>
      let shaftEnd := Heuristic.floor_times_07 (length stroke) in
      let tip := nth shaftEnd stroke origin in
      map HOp [BeginPath; MoveTo (first stroke); LineTo tip; StrokeOp;
               BeginPath; MoveTo tip; LineTo (last_pt stroke);
               LineTo (Pt (x tip - 10) (y tip)); ClosePath; StrokeOp]
  | _ => []
  end ++
  map HOp [SetStrokeStyle black; SetLineWidth 2].

(** The ledger holds [{ type, stroke }] records. *)
Record state : Type := State {
  isDrawing : bool;
  currentStroke : list point;
  recognizedShapes : list (shape_type * list point);
  ops : list hop
}.

Definition handleMouseDown (pos : point) (st : state) : state :=
  State true [pos] (recognizedShapes st) (ops st ++ map HOp [BeginPath; MoveTo pos]).

Definition handleMouseMove (pos : point) (st : state) : state :=
  if isDrawing st then
    State true (currentStroke st ++ [pos]) (recognizedShapes st)
      (ops st ++ map HOp [LineTo pos; StrokeOp])
  else st.

(** [handleMouseUp] (555-567). *)
Definition handleMouseUp (st : state) : state :=
  let st' :=
    if isDrawing st && (1 <? length (currentStroke st))%nat then
      let detectedShape := Heuristic.detectShape (currentStroke st) in
      if negb (shape_type_eqb detectedShape TFreehand) then
        State (isDrawing st) (currentStroke st)
          (recognizedShapes st ++ [(detectedShape, currentStroke st)])
          (ops st ++ drawRecognizedShape detectedShape (currentStroke st))
      else st
    else st in
  State false [] (recognizedShapes st') (ops st').

Definition handleMouseLeave (st : state) : state :=
  State false [] (recognizedShapes st) (ops st).

(** One press-drag-release gesture delivering the points of [stroke]. *)
Definition drawStroke (stroke : list point) (st : state) : state :=
  match stroke with
  | [] => st
  | p :: ps =>
      handleMouseUp (fold_left (fun s q => handleMouseMove q s) ps (handleMouseDown p st))
  end.

Definition drawStrokes (strokes : list (list point)) (st : state) : state :=
  fold_left (fun s stroke => drawStroke stroke s) strokes st.

End HeuristicCanvas.

(** [getVertices] ([src/unnamed/part_003] 478-484) over the [rows] and the
    [data32S] typed array of the approximation [Mat]; reading past the end
    of the array gives [undefined] ([None]). *)
Definition getVertices (rows : nat) (data32S : list Z) : list (option Z * option Z) :=
  map (fun i => (nth_error data32S (2 * i), nth_error data32S (2 * i + 1)))
    (seq 0 rows).

(** The [x, y] pairs of a vertex list laid out as a [CV_32SC2] buffer. *)
Definition flatten_vertices (vs : list (Z * Z)) : list Z :=
  flat_map (fun v => [fst v; snd v]) vs.

(** The stroke style and line width in effect after a sequence of calls. *)
Definition style_step (cur : String.string * R) (o : op) : String.string * R :=
  match o with
  | SetStrokeStyle c => (c, snd cur)
  | SetLineWidth w => (fst cur, w)
  | _ => cur
  end.

Definition style (init : String.string * R) (os : list op) : String.string * R :=
  fold_left style_step os init.

Definition hstyle (init : String.string * R) (os : list HeuristicCanvas.hop)
  : String.string * R :=
  fold_left (fun cur o => match o with
                          | HeuristicCanvas.HOp o' => style_step cur o'
                          | HeuristicCanvas.StrokeRect _ _ _ _ => cur
                          end) os init.

(** The shapes [handleMouseUp] of the final OpenCV canvas can record: a line
    accepted by [isLine], a traced triangle or quadrilateral, a circle. *)
Definition ledger_entry_ok (sh : shape) : Prop :=
  match sh with
  | SLine s => val (isLine s) = true
  | STriangle vs => length vs = 3%nat
  | SRectangle vs _ => length vs = 4%nat
  | SCircle _ _ => True
  | _ => False
  end.

(** Every step of the stroke is a positive multiple of the direction [d]. *)
Fixpoint same_direction (d : point) (s : list point) : Prop :=
  match s with
  | p :: ((q :: _) as rest) =>
      (exists l, 0 < l /\ x q - x p = l * x d /\ y q - y p = l * y d) /\
      same_direction d rest
  | _ => True
  end.

(** A gesture whose release reaches classification: [handleMouseUp] runs
    [detectShape] only when [currentStroke.length > 1]. *)
Definition completed {Contour : Type} (g : bool * option (OpenCVLib Contour) * list point)
  : bool :=
  (2 <=? length (snd g))%nat.

(** No call of the sequence clears the canvas. *)
Definition no_clear (os : list op) : Prop :=
  forall x0 y0 w h, ~ In (ClearRect x0 y0 w h) os.

(** What the final OpenCV canvas shows: either nothing was recognized yet
    and the canvas was never cleared, or the last clear of the whole
    surface is followed by the grid, every recorded shape in order, and
    then only raw ink. *)
Definition shows_ledger (width height : nat) (st : OpenCV.state) : Prop :=
  (OpenCV.recognizedShapes st = [] /\ no_clear (OpenCV.ops st)) \/
  exists pre ink,
    OpenCV.ops st = pre ++ [ClearRect 0 0 (INR width) (INR height)] ++
      OpenCV.drawGrid width height ++
      flat_map OpenCV.drawCleanShape (OpenCV.recognizedShapes st) ++ ink /\
    no_clear ink.

(** ** Measures named by the specification *)

(** The stroke is closed: its endpoints are less than [THRESHOLD] apart. *)
Definition closed (s : list point) : Prop :=
  distance (first s) (last_pt s) < THRESHOLD.

(** [bounds.width / bounds.height], with JavaScript division. *)
Definition aspectRatio (s : list point) : num :=
  js_div (bwidth (getBoundingBox s)) (bheight (getBoundingBox s)).

(** Distances from the centroid to every point, their mean and the ratio
    [variance / mean] ([circularity] of [isCircle]). *)
Definition radii (s : list point) : list R :=
  map (fun p => distance (val (calculateCenter s)) p) s.

Definition averageRadius (s : list point) : R := val (average (radii s)).

Definition circularity (s : list point) : num :=
  js_div (val (calculateVariance (radii s))) (averageRadius s).

(** * Properties *)

(** ** Gestures and the ledger *)
Section Session.

Variables width height : nat.
Variable Contour : Type.

Lemma fold_moves (ps : list point) (cs : list point) (rs : list shape) (os : list op) :
  fold_left (fun s q => OpenCV.handleMouseMove q s) ps
    (OpenCV.State true cs rs os) =
  OpenCV.State true (cs ++ ps) rs
    (os ++ flat_map (fun q => [LineTo q; StrokeOp]) ps).
Proof.
  revert cs os; induction ps as [|q ps IH]; intros cs os; simpl.
  - rewrite !app_nil_r; reflexivity.
  - unfold OpenCV.handleMouseMove at 2; simpl.
    rewrite IH, <- !app_assoc; reflexivity.
Qed.

(** After a gesture, the stroke buffer handed to [handleMouseUp] is the
    gesture's point sequence. *)
Lemma drawStroke_unfold (loaded : bool) (cv : option (OpenCVLib Contour))
    (p : point) (ps : list point) (st : OpenCV.state) :
  OpenCV.drawStroke width height loaded cv (p :: ps) st =
  OpenCV.handleMouseUp width height loaded cv
    (OpenCV.State true (p :: ps) (OpenCV.recognizedShapes st)
       (OpenCV.ops st ++ [BeginPath; MoveTo p] ++
        flat_map (fun q => [LineTo q; StrokeOp]) ps)).
Proof.
  unfold OpenCV.drawStroke, OpenCV.handleMouseDown.
  rewrite fold_moves, <- app_assoc; reflexivity.
Qed.

Lemma handleMouseUp_ledger (loaded : bool) (cv : option (OpenCVLib Contour))
    (st : OpenCV.state) :
  OpenCV.isDrawing st = true ->
  (2 <= length (OpenCV.currentStroke st))%nat ->
  OpenCV.recognizedShapes
    (OpenCV.handleMouseUp width height loaded cv st) =
  OpenCV.recognizedShapes st ++
  filter not_freehand
    [OpenCV.detectShape loaded cv (OpenCV.currentStroke st)].
Proof.
  intros Hd Hl. unfold OpenCV.handleMouseUp. rewrite Hd.
  replace ((1 <? length (OpenCV.currentStroke st))%nat) with true
    by (symmetry; apply Nat.ltb_lt; lia).
  simpl. unfold not_freehand.
  destruct (negb (shape_type_eqb _ TFreehand)); simpl;
    [reflexivity | rewrite app_nil_r; reflexivity].
Qed.

Lemma drawStrokes_ledger
    (gestures : list (bool * option (OpenCVLib Contour) * list point))
    (st : OpenCV.state) :
  (forall g, In g gestures -> (2 <= length (snd g))%nat) ->
  OpenCV.recognizedShapes (OpenCV.drawStrokes width height gestures st) =
  OpenCV.recognizedShapes st ++
  filter not_freehand
    (map (fun g => let '(l, cv, s) := g in OpenCV.detectShape l cv s) gestures).
Proof.
  revert st; induction gestures as [|[[l cv] s] rest IH]; intros st Hall; simpl.
  - rewrite app_nil_r; reflexivity.
  - rewrite IH by (intros g Hg; apply Hall; right; exact Hg).
    assert (Hs : (2 <= length s)%nat) by (apply (Hall (l, cv, s)); left; reflexivity).
    destruct s as [|p ps]; [simpl in Hs; lia|].
    rewrite drawStroke_unfold, handleMouseUp_ledger by (simpl; auto).
    simpl. rewrite <- app_assoc. f_equal.
    destruct (not_freehand _); reflexivity.
Qed.

(** Gestures of fewer than two points leave the ledger as it is. *)
Lemma drawStrokes_ledger_completed
    (gestures : list (bool * option (OpenCVLib Contour) * list point))
    (st : OpenCV.state) :
  OpenCV.recognizedShapes (OpenCV.drawStrokes width height gestures st) =
  OpenCV.recognizedShapes st ++
  filter not_freehand
    (map (fun g => let '(l, cv, s) := g in OpenCV.detectShape l cv s)
       (filter completed gestures)).
Proof.
  revert st; induction gestures as [|[[l cv] s] rest IH]; intros st; simpl.
  - rewrite app_nil_r; reflexivity.
  - rewrite IH. destruct s as [|p [|q t]].
    + reflexivity.
    + rewrite drawStroke_unfold. reflexivity.
    + rewrite drawStroke_unfold, handleMouseUp_ledger by (simpl; auto; lia).
      simpl. rewrite <- app_assoc. f_equal.
      destruct (not_freehand _); reflexivity.
Qed.

End Session.

(** ** [isLine] *)

Lemma isLine_spec (s : list point) :
  val (isLine s) = true <->
  (2 <= length s)%nat /\ calculateTotalDistance s <> 0 /\
  9 / 10 < distance (first s) (last_pt s) / calculateTotalDistance s.
Proof.
  unfold isLine.
  destruct (length s <? 2)%nat eqn:Hl.
  - apply Nat.ltb_lt in Hl. simpl. split; [discriminate | lia].
  - apply Nat.ltb_ge in Hl.
    destruct (Req_EM_T (calculateTotalDistance s) 0) as [H0|H0]; simpl.
    + split; [discriminate | tauto].
    + unfold js_div. destruct (Req_EM_T (calculateTotalDistance s) 0); [contradiction|].
      simpl. unfold Rltb. destruct (Rlt_dec _ _); split; intro H; try tauto; try discriminate.
Qed.

Lemma distance_nonneg (p q : point) : 0 <= distance p q.
Proof. unfold distance; apply sqrt_pos. Qed.

Lemma distance_self (p : point) : distance p p = 0.
Proof.
  unfold distance. replace ((x p - x p) ^ 2 + (y p - y p) ^ 2) with 0 by ring.
  apply sqrt_0.
Qed.

(** A two-point stroke that does not move has no length, so it is no line. *)
Lemma isLine_still (p : point) : val (isLine [p; p]) = false.
Proof.
  apply not_true_iff_false. rewrite isLine_spec. intros (_ & H & _).
  apply H. simpl. rewrite distance_self. ring.
Qed.

Lemma distance_pos (p q : point) : p <> q -> 0 < distance p q.
Proof.
  intros Hpq. unfold distance. apply sqrt_lt_R0.
  destruct p as [px py], q as [qx qy]; simpl.
  destruct (Req_EM_T qx px) as [Ex|Ex]; destruct (Req_EM_T qy py) as [Ey|Ey].
  - subst; contradiction.
  - assert (0 < (qy - py) ^ 2) by (rewrite <- Rsqr_pow2; apply Rsqr_pos_lt; intro; lra).
    pose proof (pow2_ge_0 (qx - px)); lra.
  - assert (0 < (qx - px) ^ 2) by (rewrite <- Rsqr_pow2; apply Rsqr_pos_lt; intro; lra).
    pose proof (pow2_ge_0 (qy - py)); lra.
  - assert (0 < (qx - px) ^ 2) by (rewrite <- Rsqr_pow2; apply Rsqr_pos_lt; intro; lra).
    pose proof (pow2_ge_0 (qy - py)); lra.
Qed.

(** A two-point stroke between distinct points is a line. *)
Lemma isLine_two (p q : point) : p <> q -> val (isLine [p; q]) = true.
Proof.
  intros Hpq. apply isLine_spec. pose proof (distance_pos p q Hpq).
  unfold first, last_pt; simpl. rewrite Rplus_0_r.
  split; [lia|]. split; [lra|]. rewrite Rdiv_diag by lra. lra.
Qed.

(** ** Orchestrator, ledger and reconciler claims *)

(** C1: a stroke of at least two points, positive path length and
    straightness ratio above 0.9 is classified as a [Line] carrying the
    stroke, whatever the state of the contour collaborator (it is not
    consulted), and the line is drawn from the stroke's first point to its
    last point exactly. *)
Theorem line_short_circuits (Contour : Type) (opencvLoaded : bool)
    (cv : option (OpenCVLib Contour)) (stroke : list point)
    (Hlen : (2 <= length stroke)%nat)
    (Hpos : 0 < calculateTotalDistance stroke)
    (Hratio : distance (first stroke) (last_pt stroke) / calculateTotalDistance stroke > 9 / 10) :
  OpenCV.detectShape opencvLoaded cv stroke = SLine stroke /\
  OpenCV.drawCleanShape (SLine stroke) =
  [SetStrokeStyle red; SetLineWidth 3; BeginPath;
   MoveTo (first stroke); LineTo (last_pt stroke);
   StrokeOp; SetStrokeStyle black; SetLineWidth 2].
Proof.
  split; [|reflexivity].
  unfold OpenCV.detectShape.
  replace (val (isLine stroke)) with true; [reflexivity|].
  symmetry; apply isLine_spec; repeat split; lra || lia.
Qed.

Lemma line_short_circuits_witness :
  let s := [Pt 0 0; Pt 3 4] in
  ((2 <= length s)%nat /\ 0 < calculateTotalDistance s /\
   distance (first s) (last_pt s) / calculateTotalDistance s > 9 / 10) /\
  OpenCV.detectShape (Contour := unit) false None s = SLine s /\
  OpenCV.drawCleanShape (SLine s) =
  [SetStrokeStyle red; SetLineWidth 3; BeginPath;
   MoveTo (first s); LineTo (last_pt s);
   StrokeOp; SetStrokeStyle black; SetLineWidth 2].
Proof.
  intro s.
  assert (Hd : 0 < distance (Pt 0 0) (Pt 3 4))
    by (apply distance_pos; intro E; injection E; lra).
  assert (H : (2 <= length s)%nat /\ 0 < calculateTotalDistance s /\
              distance (first s) (last_pt s) / calculateTotalDistance s > 9 / 10).
  { unfold s, first, last_pt; simpl. rewrite Rplus_0_r.
    split; [lia|]. split; [lra|]. rewrite Rdiv_diag by lra. lra. }
  destruct H as (H1 & H2 & H3).
  split; [tauto|].
  apply (line_short_circuits unit false None s H1 H2 H3).
Defined.

(** C2: over any session started with an empty ledger, the ledger holds
    exactly the non-freehand classification results of the completed
    strokes (those of at least two points, which [handleMouseUp]
    classifies), in order: its length is the number [N] of completed
    strokes classified as a non-freehand shape, [N] plus the number [M] of
    completed strokes classified as freehand is the number of completed
    strokes, and no entry is freehand.  Shorter strokes are discarded. *)
Theorem ledger_excludes_freehand (width height : nat) (Contour : Type)
    (gestures : list (bool * option (OpenCVLib Contour) * list point))
    (st : OpenCV.state)
    (Hempty : OpenCV.recognizedShapes st = []) :
  let results :=
    map (fun g => let '(l, cv, s) := g in OpenCV.detectShape l cv s)
      (filter completed gestures) in
  let ledger := OpenCV.recognizedShapes (OpenCV.drawStrokes width height gestures st) in
  ledger = filter not_freehand results /\
  length ledger = length (filter not_freehand results) /\
  (length ledger + length (filter (fun sh => negb (not_freehand sh)) results) =
    length (filter completed gestures))%nat /\
  Forall (fun sh => type_of sh <> TFreehand) ledger.
Proof.
  intros results ledger.
  assert (Hl : ledger = filter not_freehand results).
  { unfold ledger, results. rewrite drawStrokes_ledger_completed.
    rewrite Hempty; reflexivity. }
  split; [exact Hl|]. split; [rewrite Hl; reflexivity|]. split.
  - rewrite Hl. unfold results. rewrite <- (length_map
      (fun g => let '(l, cv, s) := g in OpenCV.detectShape l cv s) (filter completed gestures)).
    generalize (map (fun g => let '(l, cv, s) := g in OpenCV.detectShape l cv s)
                  (filter completed gestures)).
    induction l as [|a l IH]; [reflexivity|].
    simpl. destruct (not_freehand a); simpl; lia.
  - rewrite Hl. apply Forall_forall. intros sh Hin.
    apply filter_In in Hin as [_ Hnf]. unfold not_freehand in Hnf.
    destruct (type_of sh); discriminate || (intro; discriminate).
Qed.

(** A session of a line, a stroke that does not move (classified freehand)
    and a one-point tap (discarded): [N = 1], [M = 1]. *)
Lemma ledger_excludes_freehand_witness :
  let gestures : list (bool * option (OpenCVLib unit) * list point) :=
    [(false, None, [Pt 0 0; Pt 3 4]); (false, None, [Pt 1 1; Pt 1 1]);
     (false, None, [Pt 5 5])] in
  let st := OpenCV.State false [] [] [] in
  OpenCV.recognizedShapes st = [] /\
  map (fun g => let '(l, cv, s) := g in OpenCV.detectShape l cv s)
    (filter completed gestures) = [SLine [Pt 0 0; Pt 3 4]; SFreehand] /\
  let results :=
    map (fun g => let '(l, cv, s) := g in OpenCV.detectShape l cv s)
      (filter completed gestures) in
  let ledger := OpenCV.recognizedShapes (OpenCV.drawStrokes 800 600 gestures st) in
  ledger = filter not_freehand results /\
  length ledger = length (filter not_freehand results) /\
  (length ledger + length (filter (fun sh => negb (not_freehand sh)) results) =
    length (filter completed gestures))%nat /\
  Forall (fun sh => type_of sh <> TFreehand) ledger.
Proof.
  intros gestures st.
  assert (H : OpenCV.recognizedShapes st = []) by reflexivity.
  split; [exact H|]. split.
  - cbn -[OpenCV.detectShape]. unfold OpenCV.detectShape.
    rewrite isLine_two by (intro E; injection E; lra).
    rewrite isLine_still. reflexivity.
  - exact (ledger_excludes_freehand 800 600 unit gestures st H).
Defined.

(** C4: when a released stroke is recognized as a non-freehand shape, the
    render calls issued are exactly: clear the whole canvas, redraw the grid,
    redraw every ledger entry in insertion order, draw the new shape; the new
    shape is appended to the ledger, so the calls after the clear are the
    grid followed by the rendering of the whole updated ledger. *)
Theorem recognition_redraws_ledger (width height : nat) (Contour : Type)
    (opencvLoaded : bool) (cv : option (OpenCVLib Contour)) (st : OpenCV.state)
    (Hdrawing : OpenCV.isDrawing st = true)
    (Hlen : (2 <= length (OpenCV.currentStroke st))%nat)
    (Hrec : type_of (OpenCV.detectShape opencvLoaded cv (OpenCV.currentStroke st))
            <> TFreehand) :
  let newShape := OpenCV.detectShape opencvLoaded cv (OpenCV.currentStroke st) in
  let st' := OpenCV.handleMouseUp width height opencvLoaded cv st in
  OpenCV.recognizedShapes st' = OpenCV.recognizedShapes st ++ [newShape] /\
  OpenCV.ops st' =
    OpenCV.ops st ++ [ClearRect 0 0 (INR width) (INR height)] ++
    OpenCV.drawGrid width height ++
    flat_map OpenCV.drawCleanShape (OpenCV.recognizedShapes st) ++
    OpenCV.drawCleanShape newShape /\
  OpenCV.ops st' =
    OpenCV.ops st ++ [ClearRect 0 0 (INR width) (INR height)] ++
    OpenCV.drawGrid width height ++
    flat_map OpenCV.drawCleanShape (OpenCV.recognizedShapes st').
Proof.
  intros newShape st'.
  assert (Hnf : negb (shape_type_eqb (type_of newShape) TFreehand) = true).
  { unfold newShape. destruct (type_of _); try reflexivity; contradiction. }
  assert (Hst' : st' = OpenCV.State false []
                   (OpenCV.recognizedShapes st ++ [newShape])
                   (OpenCV.ops st ++ OpenCV.drawRecognizedShape width height
                      (OpenCV.recognizedShapes st) newShape)).
  { unfold st', OpenCV.handleMouseUp. rewrite Hdrawing.
    replace ((1 <? length (OpenCV.currentStroke st))%nat) with true
      by (symmetry; apply Nat.ltb_lt; lia).
    fold newShape. rewrite Hnf. reflexivity. }
  rewrite Hst'; simpl.
  split; [reflexivity|]. split; [reflexivity|].
  unfold OpenCV.drawRecognizedShape. rewrite flat_map_app. simpl.
  rewrite app_nil_r, !app_assoc. reflexivity.
Qed.

Lemma recognition_redraws_ledger_witness :
  let st := OpenCV.State true [Pt 0 0; Pt 3 4] [SLine [Pt 1 1; Pt 2 2]] [] in
  (OpenCV.isDrawing st = true /\ (2 <= length (OpenCV.currentStroke st))%nat /\
   type_of (OpenCV.detectShape (Contour := unit) false None (OpenCV.currentStroke st))
     <> TFreehand) /\
  let newShape := OpenCV.detectShape (Contour := unit) false None (OpenCV.currentStroke st) in
  let st' := OpenCV.handleMouseUp 800 600 (Contour := unit) false None st in
  OpenCV.recognizedShapes st' = OpenCV.recognizedShapes st ++ [newShape] /\
  OpenCV.ops st' =
    OpenCV.ops st ++ [ClearRect 0 0 (INR 800) (INR 600)] ++
    OpenCV.drawGrid 800 600 ++
    flat_map OpenCV.drawCleanShape (OpenCV.recognizedShapes st) ++
    OpenCV.drawCleanShape newShape /\
  OpenCV.ops st' =
    OpenCV.ops st ++ [ClearRect 0 0 (INR 800) (INR 600)] ++
    OpenCV.drawGrid 800 600 ++
    flat_map OpenCV.drawCleanShape (OpenCV.recognizedShapes st').
Proof.
  intro st.
  assert (Hline : val (isLine [Pt 0 0; Pt 3 4]) = true)
    by (apply isLine_two; intro E; injection E; lra).
  assert (H : OpenCV.isDrawing st = true /\ (2 <= length (OpenCV.currentStroke st))%nat /\
              type_of (OpenCV.detectShape (Contour := unit) false None
                         (OpenCV.currentStroke st)) <> TFreehand).
  { split; [reflexivity|]. split; [simpl; lia|].
    simpl. unfold OpenCV.detectShape. rewrite Hline. discriminate. }
  split; [exact H|].
  destruct H as (H1 & H2 & H3).
  exact (recognition_redraws_ledger 800 600 unit false None st H1 H2 H3).
Defined.

(** C9: releasing a stroke of fewer than two points classifies nothing:
    the handler's result does not involve [detectShape], the ledger and the
    render calls are unchanged, and the buffer is reset.  A one-point gesture
    leaves only the raw ink calls of the press. *)
Theorem short_stroke_discarded (width height : nat) (Contour : Type)
    (opencvLoaded : bool) (cv : option (OpenCVLib Contour)) (st : OpenCV.state)
    (Hshort : (length (OpenCV.currentStroke st) < 2)%nat) :
  OpenCV.handleMouseUp width height opencvLoaded cv st =
    OpenCV.State false [] (OpenCV.recognizedShapes st) (OpenCV.ops st) /\
  forall p : point,
    OpenCV.drawStroke width height opencvLoaded cv [p] st =
    OpenCV.State false [] (OpenCV.recognizedShapes st)
      (OpenCV.ops st ++ [BeginPath; MoveTo p]).
Proof.
  split.
  - unfold OpenCV.handleMouseUp.
    replace ((1 <? length (OpenCV.currentStroke st))%nat) with false
      by (symmetry; apply Nat.ltb_ge; lia).
    rewrite andb_false_r. reflexivity.
  - intro p. reflexivity.
Qed.

Lemma short_stroke_discarded_witness :
  let st := OpenCV.State true [Pt 5 5] [] [] in
  (length (OpenCV.currentStroke st) < 2)%nat /\
  (OpenCV.handleMouseUp 800 600 (Contour := unit) true None st =
     OpenCV.State false [] (OpenCV.recognizedShapes st) (OpenCV.ops st) /\
   forall p : point,
     OpenCV.drawStroke 800 600 (Contour := unit) true None [p] st =
     OpenCV.State false [] (OpenCV.recognizedShapes st)
       (OpenCV.ops st ++ [BeginPath; MoveTo p])).
Proof.
  intro st.
  assert (H : (length (OpenCV.currentStroke st) < 2)%nat) by (simpl; lia).
  split; [exact H|].
  exact (short_stroke_discarded 800 600 unit true None st H).
Defined.

(** ** Contour classifier *)

(** C8: a traced contour whose polygon approximation (epsilon = 2% of the
    perimeter) has 3 vertices is a [Triangle] with those vertices, 4 vertices
    a [Rectangle] with those vertices; any other count gives a [Circle] from
    the minimum enclosing circle exactly when [4 PI area / perimeter^2]
    exceeds 0.85 and [unknown] otherwise; [detectShapes] keeps exactly the
    contours not classified [unknown]. *)
Theorem contour_classification (Contour : Type) (cv : OpenCVLib Contour)
    (contour : Contour) :
  let perimeter := arcLength cv contour in
  let approx := approxPolyDP cv contour (2 / 100 * perimeter) in
  let area := contourArea cv contour in
  let circularity := js_div (4 * PI * area) (perimeter * perimeter) in
  (length approx = 3%nat -> OpenCV.classifyShape cv contour = STriangle approx) /\
  (length approx = 4%nat ->
     OpenCV.classifyShape cv contour = SRectangle approx (boundingRect cv contour)) /\
  (length approx <> 3%nat -> length approx <> 4%nat ->
     (num_gt circularity (85 / 100) = true ->
        OpenCV.classifyShape cv contour =
        SCircle (fst (minEnclosingCircle cv contour)) (snd (minEnclosingCircle cv contour))) /\
     (num_gt circularity (85 / 100) = false ->
        OpenCV.classifyShape cv contour = SUnknown)) /\
  (perimeter <> 0 ->
     (num_gt circularity (85 / 100) = true <-> 4 * PI * area / perimeter ^ 2 > 85 / 100)) /\
  (forall (stroke : list point) (sh : shape),
     In sh (OpenCV.detectShapes (Some cv) stroke) <->
     (exists c, In c (findContours cv stroke) /\ OpenCV.classifyShape cv c = sh) /\
     sh <> SUnknown).
Proof.
  intros perimeter approx area circularity.
  unfold OpenCV.classifyShape. fold perimeter approx area circularity.
  split; [intros H; rewrite H; reflexivity|].
  split; [intros H; rewrite H; reflexivity|].
  split.
  { intros H3 H4.
    replace ((length approx =? 3)%nat) with false by (symmetry; apply Nat.eqb_neq; exact H3).
    replace ((length approx =? 4)%nat) with false by (symmetry; apply Nat.eqb_neq; exact H4).
    destruct (minEnclosingCircle cv contour) as [c r]; simpl.
    split; intros H; rewrite H; reflexivity. }
  split.
  { intros Hp. unfold circularity, js_div.
    destruct (Req_EM_T (perimeter * perimeter) 0) as [E|E].
    { exfalso. apply Hp. destruct (Rmult_integral _ _ E); assumption. }
    simpl. unfold Rltb. rewrite Rmult_1_r.
    destruct (Rlt_dec _ _) as [L|L]; split; intro H;
      [exact L | reflexivity | discriminate | exfalso; apply L; exact H]. }
  intros stroke sh. unfold OpenCV.detectShapes.
  rewrite filter_In, in_map_iff.
  split.
  - intros [[c [Hc Hin]] Hk]. split; [exists c; split; assumption|].
    intros ->. discriminate.
  - intros [[c [Hin Hc]] Hk]. split; [exists c; split; assumption|].
    destruct sh; simpl; reflexivity || contradiction.
Qed.

(** ** Heuristic predicates: size gates *)

(** C10: in both versions of the heuristic predicates, a stroke of fewer
    than 6 points is never a circle and a stroke of fewer than 4 points is
    never a rectangle. *)
Theorem size_gates (s : list point) :
  ((length s < 6)%nat ->
     val (Heuristic.isCircle s) = false /\ val (OpenCVHeuristic.isCircle s) = false) /\
  ((length s < 4)%nat ->
     val (Heuristic.isRectangle s) = false /\ val (OpenCVHeuristic.isRectangle s) = false).
Proof.
  split; intros H;
    unfold Heuristic.isCircle, OpenCVHeuristic.isCircle,
           Heuristic.isRectangle, OpenCVHeuristic.isRectangle.
  - replace ((length s <? 6)%nat) with true by (symmetry; apply Nat.ltb_lt; exact H).
    split; reflexivity.
  - replace ((length s <? 4)%nat) with true by (symmetry; apply Nat.ltb_lt; exact H).
    split; reflexivity.
Qed.

(** ** Heuristic predicates: characterisations *)

Lemma findCorners_length (s : list point) :
  (length (Heuristic.findCorners s) <= length s - 2)%nat.
Proof.
  induction s as [|a rest IH]; [simpl; lia|].
  destruct rest as [|b [|c t]]; [simpl; lia | simpl; lia|].
  change (Heuristic.findCorners (a :: b :: c :: t)) with
    ((if Rltb (PI / 6)
           (Rabs (Heuristic.atan2 (y b - y a) (x b - x a) -
                  Heuristic.atan2 (y c - y b) (x c - x b)))
      then [b] else []) ++ Heuristic.findCorners (b :: c :: t)).
  rewrite length_app. simpl in IH |- *.
  destruct (Rltb _ _); simpl; lia.
Qed.

Lemma Rltb_true (a b : R) : Rltb a b = true <-> a < b.
Proof. unfold Rltb; destruct (Rlt_dec a b); split; intro; auto; discriminate || contradiction. Qed.

Lemma Heuristic_isRectangle_spec (s : list point) :
  val (Heuristic.isRectangle s) = true <->
  closed s /\ (2 <= length (Heuristic.findCorners s))%nat /\
  num_gt (aspectRatio s) (2 / 10) = true /\ num_lt (aspectRatio s) 5 = true.
Proof.
  pose proof (findCorners_length s) as Hc.
  unfold Heuristic.isRectangle, closed, aspectRatio.
  destruct (length s <? 4)%nat eqn:Hl.
  - apply Nat.ltb_lt in Hl. simpl. split; [discriminate | lia].
  - destruct (Rltb (distance (first s) (last_pt s)) THRESHOLD) eqn:Hcl;
      cbn [val bind ret divJ fst snd negb andb].
    + apply Rltb_true in Hcl.
      rewrite !andb_true_iff, Nat.leb_le. tauto.
    + split; [discriminate|]. intros [H _]. apply Rltb_true in H. congruence.
Qed.

Lemma OpenCV_isRectangle_spec (s : list point) :
  val (OpenCVHeuristic.isRectangle s) = true <->
  (4 <= length s)%nat /\ closed s /\
  num_gt (aspectRatio s) (2 / 10) = true /\ num_lt (aspectRatio s) 5 = true.
Proof.
  unfold OpenCVHeuristic.isRectangle, closed, aspectRatio.
  destruct (length s <? 4)%nat eqn:Hl.
  - apply Nat.ltb_lt in Hl. simpl. split; [discriminate | lia].
  - apply Nat.ltb_ge in Hl.
    destruct (Rltb (distance (first s) (last_pt s)) THRESHOLD) eqn:Hcl; simpl.
    + apply Rltb_true in Hcl. rewrite !andb_true_iff. tauto.
    + split; [discriminate|]. intros [_ [H _]]. apply Rltb_true in H. congruence.
Qed.

(** ** Evaluating the predicates on concrete strokes *)

(** Case on the innermost real comparisons first. *)
Ltac no_dec t :=
  lazymatch t with
  | context [Rlt_dec _ _] => fail
  | context [Rle_dec _ _] => fail
  | context [Req_EM_T _ _] => fail
  | _ => idtac
  end.

Ltac rdec :=
  repeat match goal with
  | |- context [Rlt_dec ?a ?b] => no_dec a; no_dec b; destruct (Rlt_dec a b)
  | |- context [Rle_dec ?a ?b] => no_dec a; no_dec b; destruct (Rle_dec a b)
  | |- context [Req_EM_T ?a ?b] => no_dec a; no_dec b; destruct (Req_EM_T a b)
  end.

Ltac minmax := unfold Rmin, Rmax; rdec; try lra.

Lemma sqrt_lit (a b : R) : 0 <= b -> a = b * b -> sqrt a = b.
Proof. intros Hb ->. apply sqrt_square; exact Hb. Qed.

Lemma sqrt_lt_lit (a b : R) : 0 <= a -> 0 <= b -> a < b * b -> sqrt a < b.
Proof.
  intros Ha Hb Hlt. rewrite <- (sqrt_square b Hb). apply sqrt_lt_1_alt. lra.
Qed.

Lemma atan2_east (a : R) : 0 < a -> Heuristic.atan2 0 a = 0.
Proof.
  intros Ha. unfold Heuristic.atan2.
  destruct (Rlt_dec 0 a); [|lra]. unfold Rdiv. rewrite Rmult_0_l. apply atan_0.
Qed.

Lemma atan2_north (a : R) : 0 < a -> Heuristic.atan2 a 0 = PI / 2.
Proof.
  intros Ha. unfold Heuristic.atan2.
  destruct (Rlt_dec 0 0); [lra|]. destruct (Rlt_dec 0 0); [lra|].
  destruct (Rlt_dec 0 a); [reflexivity|lra].
Qed.

Lemma num_gt_fin (r c : R) : num_gt (Fin r) c = true <-> c < r.
Proof. apply Rltb_true. Qed.

Lemma num_lt_fin (r c : R) : num_lt (Fin r) c = true <-> r < c.
Proof. apply Rltb_true. Qed.

Lemma js_div_fin (a b : R) : b <> 0 -> js_div a b = Fin (a / b).
Proof. intros Hb. unfold js_div. destruct (Req_EM_T b 0); [contradiction|reflexivity]. Qed.

(** The stroke of the rectangle counterexample: closed, 4 points, one
    corner. *)
Lemma bbox_hook :
  getBoundingBox [Pt 0 0; Pt 4 0; Pt 8 0; Pt 8 4] = BBox 0 8 0 4 8 4.
Proof.
  unfold getBoundingBox, list_min, list_max; simpl.
  f_equal; minmax.
Qed.

Lemma corners_hook :
  Heuristic.findCorners [Pt 0 0; Pt 4 0; Pt 8 0; Pt 8 4] = [Pt 8 0].
Proof.
  simpl.
  replace (0 - 0) with 0 by ring. replace (4 - 0) with 4 by ring.
  replace (8 - 4) with 4 by ring. replace (8 - 8) with 0 by ring.
  rewrite !atan2_east by lra. rewrite atan2_north by lra.
  replace (0 - 0) with 0 by ring. rewrite Rabs_R0.
  replace (Rabs (0 - PI / 2)) with (PI / 2)
    by (rewrite Rabs_minus_sym, Rminus_0_r, Rabs_pos_eq; [reflexivity|];
        pose proof PI_RGT_0; lra).
  pose proof PI_RGT_0.
  unfold Rltb. destruct (Rlt_dec (PI / 6) 0); [lra|].
  destruct (Rlt_dec (PI / 6) (PI / 2)); [reflexivity|lra].
Qed.

Lemma closed_hook : closed [Pt 0 0; Pt 4 0; Pt 8 0; Pt 8 4].
Proof.
  unfold closed, distance, first, last_pt, THRESHOLD; simpl.
  apply sqrt_lt_lit; lra.
Qed.

Lemma aspect_hook : aspectRatio [Pt 0 0; Pt 4 0; Pt 8 0; Pt 8 4] = Fin (8 / 4).
Proof. unfold aspectRatio. rewrite bbox_hook. simpl. apply js_div_fin. lra. Qed.

(** C6 (counterexample): the rectangle predicate of the final OpenCV canvas
    accepts the closed stroke (0,0) (4,0) (8,0) (8,4), whose corner count is
    1, so it does not hold exactly when the stroke is closed, has at least
    two corners and an aspect ratio in (0.2, 5). *)
Lemma rectangle_iff_counterexample :
  let s := [Pt 0 0; Pt 4 0; Pt 8 0; Pt 8 4] in
  val (OpenCVHeuristic.isRectangle s) = true /\
  length (Heuristic.findCorners s) = 1%nat /\
  ~ (val (OpenCVHeuristic.isRectangle s) = true <->
     closed s /\ (2 <= length (Heuristic.findCorners s))%nat /\
     num_gt (aspectRatio s) (2 / 10) = true /\ num_lt (aspectRatio s) 5 = true).
Proof.
  intro s.
  assert (Hr : val (OpenCVHeuristic.isRectangle s) = true).
  { apply OpenCV_isRectangle_spec. unfold s. rewrite aspect_hook.
    rewrite num_gt_fin, num_lt_fin.
    split; [simpl; lia|]. split; [exact closed_hook|]. split; lra. }
  assert (Hc : length (Heuristic.findCorners s) = 1%nat)
    by (unfold s; rewrite corners_hook; reflexivity).
  split; [exact Hr|]. split; [exact Hc|].
  intros [H _]. destruct (H Hr) as (_ & Hk & _). lia.
Qed.

(** C6 (amended): the rectangle predicate of the heuristic-only canvas
    holds exactly when the stroke is closed, has at least two corners and an
    aspect ratio strictly between 0.2 and 5 (its 4-point gate is implied by
    the corner count); the final OpenCV canvas's predicate has no corner
    test: it holds exactly when the stroke has at least 4 points, is closed
    and has an aspect ratio strictly between 0.2 and 5. *)
Theorem rectangle_predicates (s : list point) :
  (val (Heuristic.isRectangle s) = true <->
   closed s /\ (2 <= length (Heuristic.findCorners s))%nat /\
   num_gt (aspectRatio s) (2 / 10) = true /\ num_lt (aspectRatio s) 5 = true) /\
  (val (OpenCVHeuristic.isRectangle s) = true <->
   (4 <= length s)%nat /\ closed s /\
   num_gt (aspectRatio s) (2 / 10) = true /\ num_lt (aspectRatio s) 5 = true).
Proof.
  split; [apply Heuristic_isRectangle_spec | apply OpenCV_isRectangle_spec].
Qed.

(** ** Circle predicates *)

Lemma fold_left_Rplus_nonneg (l : list R) (a : R) :
  0 <= a -> Forall (fun v => 0 <= v) l -> 0 <= fold_left Rplus l a.
Proof.
  revert a; induction l as [|v l IH]; intros a Ha Hl; simpl; [exact Ha|].
  inversion Hl; subst. apply IH; [lra | assumption].
Qed.

Lemma variance_nonneg (values : list R) :
  (0 < length values)%nat -> 0 <= val (calculateVariance values).
Proof.
  intros Hn. unfold calculateVariance, val, divR; cbn.
  unfold Rdiv. apply Rmult_le_pos.
  - apply fold_left_Rplus_nonneg; [lra|].
    apply Forall_forall. intros v Hv. apply in_map_iff in Hv as [w [<- _]].
    apply pow2_ge_0.
  - left. apply Rinv_0_lt_compat, lt_0_INR; exact Hn.
Qed.

Lemma js_div_zero_lt (v c : R) : 0 <= v -> num_lt (js_div v 0) c = false.
Proof.
  intros Hv. unfold js_div.
  destruct (Req_EM_T 0 0) as [_|E]; [|contradiction].
  destruct (Rlt_dec 0 v); [reflexivity|].
  destruct (Rlt_dec v 0); [lra|reflexivity].
Qed.

Lemma Heuristic_isCircle_spec (s : list point) :
  val (Heuristic.isCircle s) = true <->
  (6 <= length s)%nat /\ closed s /\ num_lt (circularity s) (1 / 2) = true /\
  num_gt (aspectRatio s) (1 / 2) = true /\ num_lt (aspectRatio s) 2 = true.
Proof.
  unfold Heuristic.isCircle, closed, aspectRatio, circularity, averageRadius, radii.
  destruct (length s <? 6)%nat eqn:Hl.
  - apply Nat.ltb_lt in Hl. simpl. split; [discriminate | lia].
  - apply Nat.ltb_ge in Hl.
    destruct (Rltb (distance (first s) (last_pt s)) THRESHOLD) eqn:Hcl;
      cbn [negb].
    2: { simpl. split; [discriminate|]. intros (_ & H & _).
         apply Rltb_true in H. congruence. }
    apply Rltb_true in Hcl.
    unfold bind at 1. destruct (calculateCenter s) as [l1 center] eqn:Hc.
    cbn [val snd].
    unfold bind at 1. destruct (average (map (fun p => distance center p) s)) as [l2 avg] eqn:Ha.
    cbn [val snd].
    destruct (Req_EM_T avg 0) as [E|E].
    + cbn. split; [discriminate|]. intros (_ & _ & H & _).
      rewrite E, js_div_zero_lt in H; [discriminate|].
      apply variance_nonneg. rewrite length_map. lia.
    + unfold bind. destruct (calculateVariance (map (fun p => distance center p) s)) as [l3 var].
      cbn. rewrite !andb_true_iff. tauto.
Qed.

Lemma OpenCV_isCircle_spec (s : list point) :
  val (OpenCVHeuristic.isCircle s) = true <->
  (6 <= length s)%nat /\ closed s /\ averageRadius s <> 0 /\
  num_gt (aspectRatio s) (1 / 2) = true /\ num_lt (aspectRatio s) 2 = true.
Proof.
  unfold OpenCVHeuristic.isCircle, closed, aspectRatio, averageRadius, radii.
  destruct (length s <? 6)%nat eqn:Hl.
  - apply Nat.ltb_lt in Hl. simpl. split; [discriminate | lia].
  - apply Nat.ltb_ge in Hl.
    destruct (Rltb (distance (first s) (last_pt s)) THRESHOLD) eqn:Hcl;
      cbn [negb].
    2: { simpl. split; [discriminate|]. intros (_ & H & _).
         apply Rltb_true in H. congruence. }
    apply Rltb_true in Hcl.
    unfold bind at 1. destruct (calculateCenter s) as [l1 center] eqn:Hc.
    cbn [val snd].
    unfold bind at 1. destruct (average (map (fun p => distance center p) s)) as [l2 avg] eqn:Ha.
    cbn [val snd].
    destruct (Req_EM_T avg 0) as [E|E].
    + cbn. split; [discriminate|]. intros (_ & _ & H & _). contradiction.
    + cbn. rewrite !andb_true_iff. tauto.
Qed.

(** The stroke (1,0) (0,1) (-1,0) (0,-1): four points on the unit circle. *)
Definition diamond : list point := [Pt 1 0; Pt 0 1; Pt (-1) 0; Pt 0 (-1)].

Lemma center_diamond : val (calculateCenter diamond) = Pt 0 0.
Proof.
  unfold calculateCenter, diamond, sumR, val, divR; simpl.
  f_equal; field; lra.
Qed.

Lemma radii_diamond : radii diamond = [1; 1; 1; 1].
Proof.
  unfold radii. rewrite center_diamond. unfold diamond, distance; simpl.
  rewrite !(sqrt_lit _ 1) by (try lra; ring). reflexivity.
Qed.

Lemma averageRadius_diamond : averageRadius diamond = 1.
Proof.
  unfold averageRadius. rewrite radii_diamond.
  unfold average, sumR, val, divR; simpl. field; lra.
Qed.

Lemma circularity_diamond : circularity diamond = Fin 0.
Proof.
  unfold circularity. rewrite averageRadius_diamond, radii_diamond.
  rewrite js_div_fin by lra. f_equal.
  unfold calculateVariance, sumR, val, bind, divR; simpl. field; lra.
Qed.

Lemma aspect_diamond : aspectRatio diamond = Fin (2 / 2).
Proof.
  unfold aspectRatio.
  replace (getBoundingBox diamond) with (BBox (-1) 1 (-1) 1 2 2).
  - simpl. apply js_div_fin. lra.
  - unfold getBoundingBox, list_min, list_max, diamond; simpl.
    f_equal; minmax.
Qed.

Lemma closed_diamond : closed diamond.
Proof.
  unfold closed, distance, first, last_pt, THRESHOLD, diamond; simpl.
  apply sqrt_lt_lit; lra.
Qed.

(** C7 (counterexample): the stroke (1,0) (0,1) (-1,0) (0,-1) is closed,
    has circularity 0 and aspect ratio 1, yet neither circle predicate
    accepts it, since both require at least 6 points. *)
Lemma circle_iff_counterexample :
  closed diamond /\ num_lt (circularity diamond) (1 / 2) = true /\
  num_gt (aspectRatio diamond) (1 / 2) = true /\
  num_lt (aspectRatio diamond) 2 = true /\
  val (Heuristic.isCircle diamond) = false /\
  val (OpenCVHeuristic.isCircle diamond) = false.
Proof.
  rewrite circularity_diamond, aspect_diamond, num_lt_fin, num_gt_fin, num_lt_fin.
  split; [exact closed_diamond|].
  split; [lra|]. split; [lra|]. split; [lra|].
  split; reflexivity.
Qed.

(** C7 (amended): the circle predicate of the heuristic-only canvas holds
    exactly when the stroke has at least 6 points, is closed, its
    circularity (variance of the radii over their mean) is below 0.5 and its
    aspect ratio lies strictly between 0.5 and 2; a zero mean radius makes it
    false. The final OpenCV canvas's fallback predicate computes no variance:
    it holds exactly when the stroke has at least 6 points, is closed, its
    mean radius is nonzero and its aspect ratio lies strictly between 0.5
    and 2. *)
Theorem circle_predicates (s : list point) :
  (val (Heuristic.isCircle s) = true <->
   (6 <= length s)%nat /\ closed s /\ num_lt (circularity s) (1 / 2) = true /\
   num_gt (aspectRatio s) (1 / 2) = true /\ num_lt (aspectRatio s) 2 = true) /\
  (val (OpenCVHeuristic.isCircle s) = true <->
   (6 <= length s)%nat /\ closed s /\ averageRadius s <> 0 /\
   num_gt (aspectRatio s) (1 / 2) = true /\ num_lt (aspectRatio s) 2 = true).
Proof.
  split; [apply Heuristic_isCircle_spec | apply OpenCV_isCircle_spec].
Qed.

(** ** Degenerate geometry *)

Lemma js_div_zero_window (a lo hi : R) :
  num_gt (js_div a 0) lo && num_lt (js_div a 0) hi = false.
Proof.
  unfold js_div. destruct (Req_EM_T 0 0) as [_|E]; [|contradiction].
  destruct (Rlt_dec 0 a); [reflexivity|].
  destruct (Rlt_dec a 0); reflexivity.
Qed.

Lemma js_div_zero_num_gt (h lo : R) : 0 <= lo -> num_gt (js_div 0 h) lo = false.
Proof.
  intros Hlo. unfold js_div. destruct (Req_EM_T h 0).
  - destruct (Rlt_dec 0 0); [lra|]. destruct (Rlt_dec 0 0); [lra|reflexivity].
  - simpl. unfold Rdiv. rewrite Rmult_0_l. unfold Rltb.
    destruct (Rlt_dec lo 0); [lra|reflexivity].
Qed.

(** A flat bounding box makes the aspect-ratio window fail. *)
Lemma flat_window (s : list point) (lo hi : R) :
  0 <= lo ->
  bwidth (getBoundingBox s) = 0 \/ bheight (getBoundingBox s) = 0 ->
  num_gt (aspectRatio s) lo && num_lt (aspectRatio s) hi = false.
Proof.
  intros Hlo [Hw|Hh]; unfold aspectRatio.
  - rewrite Hw, js_div_zero_num_gt by exact Hlo. reflexivity.
  - rewrite Hh. apply js_div_zero_window.
Qed.

Lemma flat_predicates (s : list point) :
  bwidth (getBoundingBox s) = 0 \/ bheight (getBoundingBox s) = 0 ->
  val (Heuristic.isRectangle s) = false /\ val (Heuristic.isCircle s) = false /\
  val (OpenCVHeuristic.isRectangle s) = false /\
  val (OpenCVHeuristic.isCircle s) = false.
Proof.
  intros Hd.
  pose proof (flat_window s (2 / 10) 5 ltac:(lra) Hd) as Hr.
  pose proof (flat_window s (1 / 2) 2 ltac:(lra) Hd) as Hc.
  apply andb_false_iff in Hr, Hc.
  repeat split; apply not_true_iff_false.
  - rewrite Heuristic_isRectangle_spec. intros (_ & _ & H1 & H2).
    destruct Hr; congruence.
  - rewrite Heuristic_isCircle_spec. intros (_ & _ & _ & H1 & H2).
    destruct Hc; congruence.
  - rewrite OpenCV_isRectangle_spec. intros (_ & _ & H1 & H2).
    destruct Hr; congruence.
  - rewrite OpenCV_isCircle_spec. intros (_ & _ & _ & H1 & H2).
    destruct Hc; congruence.
Qed.

Lemma fold_left_Rmin_const (l : list R) (a : R) :
  (forall v, In v l -> v = a) -> fold_left Rmin l a = a.
Proof.
  induction l as [|v l IH]; intros H; simpl; [reflexivity|].
  rewrite (H v (or_introl eq_refl)).
  replace (Rmin a a) with a by (unfold Rmin; destruct (Rle_dec a a); reflexivity).
  apply IH. intros w Hw. apply H. right. exact Hw.
Qed.

Lemma fold_left_Rmax_const (l : list R) (a : R) :
  (forall v, In v l -> v = a) -> fold_left Rmax l a = a.
Proof.
  induction l as [|v l IH]; intros H; simpl; [reflexivity|].
  rewrite (H v (or_introl eq_refl)).
  replace (Rmax a a) with a by (unfold Rmax; destruct (Rle_dec a a); reflexivity).
  apply IH. intros w Hw. apply H. right. exact Hw.
Qed.

(** A stroke whose points all coincide has a zero-width, zero-height box. *)
Lemma const_bbox (s : list point) (c : point) :
  (forall p, In p s -> p = c) ->
  bwidth (getBoundingBox s) = 0 /\ bheight (getBoundingBox s) = 0.
Proof.
  intros H. destruct s as [|p t]; [simpl; split; ring|].
  assert (Hp : p = c) by (apply H; left; reflexivity). subst p.
  assert (Ht : forall q, In q t -> q = c) by (intros q Hq; apply H; right; exact Hq).
  unfold getBoundingBox, list_min, list_max; simpl.
  rewrite fold_left_Rmin_const, fold_left_Rmax_const, fold_left_Rmin_const,
    fold_left_Rmax_const; try (split; ring);
    intros v Hv; apply in_map_iff in Hv as [q [<- Hq]]; rewrite (Ht q Hq);
    reflexivity.
Qed.

Lemma distance_zero (p q : point) : distance p q = 0 -> p = q.
Proof.
  destruct p as [px py], q as [qx qy]. unfold distance; cbn [x y]. intros H.
  pose proof (pow2_ge_0 (qx - px)). pose proof (pow2_ge_0 (qy - py)).
  apply sqrt_eq_0 in H; [|lra].
  assert (E1 : (qx - px) ^ 2 = 0) by lra.
  assert (E2 : (qy - py) ^ 2 = 0) by lra.
  rewrite <- Rsqr_pow2 in E1, E2. apply Rsqr_0_uniq in E1, E2. f_equal; lra.
Qed.

Lemma total_nonneg (s : list point) : 0 <= calculateTotalDistance s.
Proof.
  induction s as [|p s IH]; [simpl; lra|].
  destruct s as [|q t]; simpl; [lra|].
  pose proof (distance_nonneg p q). simpl in IH. lra.
Qed.

(** A zero path length means every point is the first one. *)
Lemma total_zero_const (s : list point) :
  calculateTotalDistance s = 0 -> forall p, In p s -> p = first s.
Proof.
  induction s as [|a s IH]; intros H p Hp; [destruct Hp|].
  destruct s as [|b t].
  - destruct Hp as [<-|[]]. reflexivity.
  - change (distance a b + calculateTotalDistance (b :: t) = 0) in H.
    pose proof (distance_nonneg a b). pose proof (total_nonneg (b :: t)).
    assert (Hab : a = b) by (apply distance_zero; lra).
    assert (Hr : calculateTotalDistance (b :: t) = 0) by lra.
    unfold first; simpl. destruct Hp as [<-|Hp]; [reflexivity|].
    rewrite (IH Hr p Hp). unfold first; simpl. symmetry; exact Hab.
Qed.

Lemma const_total (s : list point) (c : point) :
  (forall p, In p s -> p = c) -> calculateTotalDistance s = 0.
Proof.
  induction s as [|a s IH]; intros H; [reflexivity|].
  destruct s as [|b t]; [reflexivity|].
  change (distance a b + calculateTotalDistance (b :: t) = 0).
  rewrite IH by (intros p Hp; apply H; right; exact Hp).
  rewrite (H a (or_introl eq_refl)), (H b (or_intror (or_introl eq_refl))).
  rewrite distance_self. ring.
Qed.

Lemma fold_left_Rplus_zero (l : list R) (a : R) :
  0 <= a -> Forall (fun v => 0 <= v) l -> fold_left Rplus l a = 0 ->
  a = 0 /\ forall v, In v l -> v = 0.
Proof.
  revert a; induction l as [|v l IH]; intros a Ha Hl H; simpl in H.
  - split; [exact H | intros v []].
  - inversion Hl as [|? ? Hv Hl']; subst.
    destruct (IH (a + v) ltac:(lra) Hl' H) as [Hav Hrest].
    split; [lra|]. intros w [<-|Hw]; [lra | apply Hrest; exact Hw].
Qed.

(** A zero mean radius means every point is the centroid. *)
Lemma averageRadius_zero_const (s : list point) :
  averageRadius s = 0 -> forall p, In p s -> p = val (calculateCenter s).
Proof.
  intros H p Hp.
  assert (Hn : 0 < INR (length (radii s))).
  { unfold radii. rewrite length_map. apply lt_0_INR.
    destruct s; [destruct Hp | simpl; lia]. }
  unfold averageRadius, average, val, divR in H; simpl in H.
  assert (Hs : sumR (radii s) = 0).
  { replace (sumR (radii s)) with (sumR (radii s) / INR (length (radii s)) *
                                   INR (length (radii s))) by (field; lra).
    rewrite H. ring. }
  apply fold_left_Rplus_zero in Hs as [_ Hall]; [| lra |].
  - symmetry. apply distance_zero, Hall. unfold radii.
    apply in_map_iff. exists p. split; [reflexivity | exact Hp].
  - apply Forall_forall. intros v Hv. unfold radii in Hv.
    apply in_map_iff in Hv as [q [<- _]]. apply distance_nonneg.
Qed.

(** Degenerate strokes have coinciding points, hence a flat box. *)
Lemma degenerate_flat (s : list point) :
  calculateTotalDistance s = 0 \/ averageRadius s = 0 ->
  bwidth (getBoundingBox s) = 0 /\ bheight (getBoundingBox s) = 0 /\
  calculateTotalDistance s = 0.
Proof.
  intros [H|H].
  - destruct (const_bbox s (first s) (total_zero_const s H)). tauto.
  - pose proof (averageRadius_zero_const s H) as Hc.
    destruct (const_bbox s _ Hc). split; [assumption|]. split; [assumption|].
    exact (const_total s _ Hc).
Qed.

Lemma isLine_divisors (s : list point) : ~ In 0 (divisors (isLine s)).
Proof.
  unfold isLine, divisors.
  destruct (length s <? 2)%nat; [simpl; tauto|].
  destruct (Req_EM_T (calculateTotalDistance s) 0) as [E|E]; [simpl; tauto|].
  simpl. intros [H|[]]. exact (E H).
Qed.

Ltac in_divisors H :=
  simpl in H; repeat (destruct H as [H|H]); try contradiction.

Lemma rect_divisors (s : list point) :
  (In 0 (divisors (Heuristic.isRectangle s)) -> bheight (getBoundingBox s) = 0) /\
  (In 0 (divisors (OpenCVHeuristic.isRectangle s)) -> bheight (getBoundingBox s) = 0).
Proof.
  unfold Heuristic.isRectangle, OpenCVHeuristic.isRectangle, divisors.
  destruct (length s <? 4)%nat; [simpl; tauto|].
  destruct (Rltb (distance (first s) (last_pt s)) THRESHOLD); [|simpl; tauto].
  split; intros H; in_divisors H; exact H.
Qed.

Lemma circle_divisors (s : list point) :
  (In 0 (divisors (Heuristic.isCircle s)) -> bheight (getBoundingBox s) = 0) /\
  (In 0 (divisors (OpenCVHeuristic.isCircle s)) -> bheight (getBoundingBox s) = 0).
Proof.
  unfold Heuristic.isCircle, OpenCVHeuristic.isCircle, divisors.
  destruct (length s <? 6)%nat eqn:Hl; [simpl; tauto|].
  apply Nat.ltb_ge in Hl.
  assert (Hn : 0 < INR (length s)) by (apply lt_0_INR; lia).
  destruct (Rltb (distance (first s) (last_pt s)) THRESHOLD); [|simpl; tauto].
  cbn - [Req_EM_T getBoundingBox sumR distance].
  match goal with |- context [Req_EM_T ?a 0] => destruct (Req_EM_T a 0) as [E|E] end;
    split; intros H; in_divisors H; rewrite ?length_map in H;
    solve [lra | exact H | exact (E H)].
Qed.

Lemma vertical_bbox : bwidth (getBoundingBox [Pt 0 0; Pt 0 100]) = 0.
Proof. unfold getBoundingBox, list_min, list_max; simpl. minmax. Qed.

(** C5 (counterexample): the vertical stroke (0,0) (0,100) has a zero-width
    bounding box and is still a line. *)
Lemma degenerate_counterexample :
  bwidth (getBoundingBox [Pt 0 0; Pt 0 100]) = 0 /\
  val (isLine [Pt 0 0; Pt 0 100]) = true.
Proof.
  split; [exact vertical_bbox|].
  apply isLine_two; intros E; injection E; lra.
Qed.

(** C5 (amended): [isLine] never divides by zero, and it rejects strokes
    of zero path length or zero mean radius (a zero-width or zero-height
    box does not stop it: a vertical stroke is a line). The rectangle and
    circle predicates of both canvases reject every stroke with zero path
    length, zero mean radius, zero box width or zero box height. *)
Theorem degenerate_geometry (s : list point) :
  ~ In 0 (divisors (isLine s)) /\
  (calculateTotalDistance s = 0 \/ averageRadius s = 0 -> val (isLine s) = false) /\
  Forall (fun P : list point -> W bool =>
     calculateTotalDistance s = 0 \/ averageRadius s = 0 \/
     bwidth (getBoundingBox s) = 0 \/ bheight (getBoundingBox s) = 0 ->
     val (P s) = false)
    [Heuristic.isRectangle; Heuristic.isCircle;
     OpenCVHeuristic.isRectangle; OpenCVHeuristic.isCircle].
Proof.
  assert (Hflat : calculateTotalDistance s = 0 \/ averageRadius s = 0 \/
                  bwidth (getBoundingBox s) = 0 \/ bheight (getBoundingBox s) = 0 ->
                  bwidth (getBoundingBox s) = 0 \/ bheight (getBoundingBox s) = 0).
  { intros [H|[H|H]]; [| |exact H];
      destruct (degenerate_flat s) as (Hw & _); auto. }
  split; [apply isLine_divisors|].
  split.
  { intros H. destruct (degenerate_flat s H) as (_ & _ & Ht).
    apply not_true_iff_false. rewrite isLine_spec. intros (_ & Hne & _).
    contradiction. }
  apply Forall_cons; [|apply Forall_cons; [|apply Forall_cons;
    [|apply Forall_cons; [|apply Forall_nil]]]];
    intros H; apply Hflat, flat_predicates in H; tauto.
Qed.

(** ** The contour-unavailable path *)

Lemma num_gt_weaken (v : num) (a b : R) : b <= a -> num_gt v a = true -> num_gt v b = true.
Proof.
  intros Hab. destruct v as [r| | |]; simpl; try tauto.
  rewrite !Rltb_true. lra.
Qed.

Lemma num_lt_weaken (v : num) (a b : R) : a <= b -> num_lt v a = true -> num_lt v b = true.
Proof.
  intros Hab. destruct v as [r| | |]; simpl; try tauto.
  rewrite !Rltb_true. lra.
Qed.

(** Every stroke the fallback circle predicate accepts is already accepted
    by the fallback rectangle predicate, which is tested first. *)
Lemma fallback_circle_rectangle (s : list point) :
  val (OpenCVHeuristic.isCircle s) = true -> val (OpenCVHeuristic.isRectangle s) = true.
Proof.
  rewrite OpenCV_isCircle_spec, OpenCV_isRectangle_spec.
  intros (Hl & Hc & _ & Hg & Hlt). split; [lia|]. split; [exact Hc|].
  split; [apply (num_gt_weaken _ (1 / 2)); [lra | exact Hg]
         |apply (num_lt_weaken _ 2); [lra | exact Hlt]].
Qed.

(** The stroke (5,0) (0,5) (-5,0) (0,-5) drawn twice: eight points on the
    circle of radius 5. *)
Definition ring8 : list point :=
  [Pt 5 0; Pt 0 5; Pt (-5) 0; Pt 0 (-5); Pt 5 0; Pt 0 5; Pt (-5) 0; Pt 0 (-5)].

Lemma center_ring8 : val (calculateCenter ring8) = Pt 0 0.
Proof.
  unfold calculateCenter, ring8, sumR, val, divR; simpl.
  f_equal; field; lra.
Qed.

Lemma radii_ring8 : radii ring8 = [5; 5; 5; 5; 5; 5; 5; 5].
Proof.
  unfold radii. rewrite center_ring8. unfold ring8, distance; simpl.
  rewrite !(sqrt_lit _ 5) by (try lra; ring). reflexivity.
Qed.

Lemma circularity_ring8 : circularity ring8 = Fin 0.
Proof.
  assert (Ha : averageRadius ring8 = 5).
  { unfold averageRadius. rewrite radii_ring8.
    unfold average, sumR, val, divR; simpl. field; lra. }
  unfold circularity. rewrite Ha, radii_ring8.
  rewrite js_div_fin by lra. f_equal.
  unfold calculateVariance, sumR, val, bind, divR; simpl. field; lra.
Qed.

Lemma aspect_ring8 : aspectRatio ring8 = Fin (10 / 10).
Proof.
  unfold aspectRatio.
  replace (getBoundingBox ring8) with (BBox (-5) 5 (-5) 5 10 10).
  - simpl. apply js_div_fin. lra.
  - unfold getBoundingBox, list_min, list_max, ring8; simpl.
    f_equal; minmax.
Qed.

Lemma closed_ring8 : closed ring8.
Proof.
  unfold closed, distance, first, last_pt, THRESHOLD, ring8; simpl.
  apply sqrt_lt_lit; lra.
Qed.

Lemma distance_diag (p q : point) :
  (x q - x p) ^ 2 = 25 -> (y q - y p) ^ 2 = 25 -> distance p q = sqrt 50.
Proof. intros Hx Hy. unfold distance. rewrite Hx, Hy. f_equal. lra. Qed.

Lemma not_line_ring8 : val (isLine ring8) = false.
Proof.
  apply not_true_iff_false. rewrite isLine_spec. intros (_ & _ & H).
  unfold ring8, first, last_pt in H. cbn [calculateTotalDistance nth last] in H.
  rewrite !distance_diag in H by (cbn [x y]; ring).
  assert (Hd : 0 < sqrt 50) by (apply sqrt_lt_R0; lra).
  replace (sqrt 50 / (sqrt 50 + (sqrt 50 + (sqrt 50 + (sqrt 50 + (sqrt 50 +
    (sqrt 50 + (sqrt 50 + 0))))))))
    with (1 / 7) in H by (field; lra).
  lra.
Qed.

(** C3 (code bug): the closed near-circular 8-point stroke [ring8]
    (circularity 0, aspect ratio 1, at least 6 points, not a line) is
    classified freehand by the final OpenCV canvas when the contour tracer
    is unavailable, whatever its [opencvLoaded] flag says: [detectShape]
    logs that it falls back to the heuristics but consults none. *)
Theorem contour_unavailable_freehand (opencvLoaded : bool) :
  closed ring8 /\ num_lt (circularity ring8) (1 / 2) = true /\
  num_gt (aspectRatio ring8) (1 / 2) = true /\
  num_lt (aspectRatio ring8) 2 = true /\
  (6 <= length ring8)%nat /\ val (isLine ring8) = false /\
  OpenCV.detectShape opencvLoaded (None : option (OpenCVLib unit)) ring8 = SFreehand.
Proof.
  rewrite circularity_ring8, aspect_ring8, num_lt_fin, num_gt_fin, num_lt_fin.
  split; [exact closed_ring8|].
  split; [lra|]. split; [lra|]. split; [lra|]. split; [simpl; lia|].
  split; [exact not_line_ring8|].
  unfold OpenCV.detectShape. rewrite not_line_ring8. reflexivity.
Qed.

(** * Further properties of the code *)

(** ** Sums, extrema and the geometry utilities *)

Lemma fold_left_Rmin_spec (l : list R) (a : R) :
  (fold_left Rmin l a <= a /\ forall v, In v l -> fold_left Rmin l a <= v) /\
  (fold_left Rmin l a = a \/ In (fold_left Rmin l a) l).
Proof.
  revert a; induction l as [|v l IH]; intros a; simpl.
  - split; [split; [lra | tauto] | left; reflexivity].
  - destruct (IH (Rmin a v)) as [[H1 H2] H3].
    pose proof (Rmin_l a v). pose proof (Rmin_r a v).
    split; [split; [lra|]|].
    + intros w [<-|Hw]; [lra | apply H2; exact Hw].
    + destruct H3 as [E|E]; [|right; right; exact E].
      rewrite E. unfold Rmin. destruct (Rle_dec a v); [left | right; left]; reflexivity.
Qed.

Lemma fold_left_Rmax_spec (l : list R) (a : R) :
  (a <= fold_left Rmax l a /\ forall v, In v l -> v <= fold_left Rmax l a) /\
  (fold_left Rmax l a = a \/ In (fold_left Rmax l a) l).
Proof.
  revert a; induction l as [|v l IH]; intros a; simpl.
  - split; [split; [lra | tauto] | left; reflexivity].
  - destruct (IH (Rmax a v)) as [[H1 H2] H3].
    pose proof (Rmax_l a v). pose proof (Rmax_r a v).
    split; [split; [lra|]|].
    + intros w [<-|Hw]; [lra | apply H2; exact Hw].
    + destruct H3 as [E|E]; [|right; right; exact E].
      rewrite E. unfold Rmax. destruct (Rle_dec a v); [right; left | left]; reflexivity.
Qed.

(** [Math.min(...l)] and [Math.max(...l)] bound every element and are
    elements. *)
Lemma list_min_spec (l : list R) :
  l <> [] -> (forall v, In v l -> list_min l <= v) /\ In (list_min l) l.
Proof.
  destruct l as [|a t]; [contradiction|]. intros _. unfold list_min.
  destruct (fold_left_Rmin_spec t a) as [[H1 H2] [E|E]].
  - split; [intros v [<-|Hv]; [lra | apply H2; exact Hv] | left; symmetry; exact E].
  - split; [intros v [<-|Hv]; [lra | apply H2; exact Hv] | right; exact E].
Qed.

Lemma list_max_spec (l : list R) :
  l <> [] -> (forall v, In v l -> v <= list_max l) /\ In (list_max l) l.
Proof.
  destruct l as [|a t]; [contradiction|]. intros _. unfold list_max.
  destruct (fold_left_Rmax_spec t a) as [[H1 H2] [E|E]].
  - split; [intros v [<-|Hv]; [lra | apply H2; exact Hv] | left; symmetry; exact E].
  - split; [intros v [<-|Hv]; [lra | apply H2; exact Hv] | right; exact E].
Qed.

Lemma map_nonempty {A B} (f : A -> B) (l : list A) : l <> [] -> map f l <> [].
Proof. destruct l; [contradiction | discriminate]. Qed.

Lemma in_map_elem {A B} (f : A -> B) (l : list A) (v : B) :
  In v (map f l) -> exists a, In a l /\ v = f a.
Proof. intros H. apply in_map_iff in H as [a [<- Ha]]. exists a. tauto. Qed.

(** X1: the bounding box of a non-empty stroke contains every point, and
    each of its four sides passes through a point of the stroke. *)
Theorem boundingBox_tight (s : list point) (Hne : s <> []) :
  (forall p, In p s ->
     minX (getBoundingBox s) <= x p <= maxX (getBoundingBox s) /\
     minY (getBoundingBox s) <= y p <= maxY (getBoundingBox s)) /\
  (exists p, In p s /\ x p = minX (getBoundingBox s)) /\
  (exists p, In p s /\ x p = maxX (getBoundingBox s)) /\
  (exists p, In p s /\ y p = minY (getBoundingBox s)) /\
  (exists p, In p s /\ y p = maxY (getBoundingBox s)).
Proof.
  unfold getBoundingBox; cbn [minX maxX minY maxY].
  destruct (list_min_spec (map x s) (map_nonempty x s Hne)) as [Hx1 Ix1].
  destruct (list_max_spec (map x s) (map_nonempty x s Hne)) as [Hx2 Ix2].
  destruct (list_min_spec (map y s) (map_nonempty y s Hne)) as [Hy1 Iy1].
  destruct (list_max_spec (map y s) (map_nonempty y s Hne)) as [Hy2 Iy2].
  split.
  - intros p Hp. pose proof (in_map x s p Hp). pose proof (in_map y s p Hp).
    repeat split; [apply Hx1 | apply Hx2 | apply Hy1 | apply Hy2]; assumption.
  - repeat split;
      [ destruct (in_map_elem x s _ Ix1) as [p [Hp E]]
      | destruct (in_map_elem x s _ Ix2) as [p [Hp E]]
      | destruct (in_map_elem y s _ Iy1) as [p [Hp E]]
      | destruct (in_map_elem y s _ Iy2) as [p [Hp E]] ];
      exists p; split; [exact Hp | symmetry; exact E | exact Hp | symmetry; exact E
                       | exact Hp | symmetry; exact E | exact Hp | symmetry; exact E].
Qed.

Lemma boundingBox_tight_witness :
  [Pt 0 0; Pt 3 4] <> [] /\
  minX (getBoundingBox [Pt 0 0; Pt 3 4]) <= x (Pt 3 4) <= maxX (getBoundingBox [Pt 0 0; Pt 3 4]).
Proof.
  split; [discriminate|].
  destruct (boundingBox_tight [Pt 0 0; Pt 3 4] ltac:(discriminate)) as [H _].
  apply (H (Pt 3 4)). right; left; reflexivity.
Defined.

(** ** Corners and straight strokes *)

(** X6: [findCorners] returns at most [n - 2] points of an [n]-point stroke,
    each of them an interior point: never the first or the last one. *)
Theorem findCorners_interior (s : list point) :
  (length (Heuristic.findCorners s) <= length s - 2)%nat /\
  forall c, In c (Heuristic.findCorners s) -> In c (removelast (tl s)).
Proof.
  split; [apply findCorners_length|].
  induction s as [|a rest IH]; [simpl; tauto|].
  destruct rest as [|b [|c t]]; [simpl; tauto | simpl; tauto|].
  change (Heuristic.findCorners (a :: b :: c :: t)) with
    ((if Rltb (PI / 6)
           (Rabs (Heuristic.atan2 (y b - y a) (x b - x a) -
                  Heuristic.atan2 (y c - y b) (x c - x b)))
      then [b] else []) ++ Heuristic.findCorners (b :: c :: t)).
  change (removelast (tl (a :: b :: c :: t))) with (b :: removelast (c :: t)).
  intros k Hk. apply in_app_or in Hk as [Hk|Hk].
  - destruct (Rltb _ _); [destruct Hk as [<-|[]]; left; reflexivity | destruct Hk].
  - right. exact (IH k Hk).
Qed.

Lemma atan2_scale (l yv xv : R) : 0 < l -> Heuristic.atan2 (l * yv) (l * xv) = Heuristic.atan2 yv xv.
Proof.
  intros Hl. unfold Heuristic.atan2.
  assert (Hq : xv <> 0 -> l * yv / (l * xv) = yv / xv) by (intros; field; lra).
  destruct (Rlt_dec 0 (l * xv)), (Rlt_dec 0 xv), (Rlt_dec (l * xv) 0), (Rlt_dec xv 0),
    (Rle_dec 0 (l * yv)), (Rle_dec 0 yv), (Rlt_dec 0 (l * yv)), (Rlt_dec 0 yv),
    (Rlt_dec (l * yv) 0), (Rlt_dec yv 0);
    solve [reflexivity | rewrite Hq by lra; reflexivity | exfalso; nra].
Qed.

Lemma same_direction_tail (d a : point) (s : list point) :
  same_direction d (a :: s) -> same_direction d s.
Proof. destruct s as [|b t]; simpl; tauto. Qed.

Lemma same_direction_corners (d : point) (s : list point) :
  same_direction d s -> Heuristic.findCorners s = [].
Proof.
  induction s as [|a rest IH]; intros H; [reflexivity|].
  destruct rest as [|b [|c t]]; [reflexivity | reflexivity|].
  change (Heuristic.findCorners (a :: b :: c :: t)) with
    ((if Rltb (PI / 6)
           (Rabs (Heuristic.atan2 (y b - y a) (x b - x a) -
                  Heuristic.atan2 (y c - y b) (x c - x b)))
      then [b] else []) ++ Heuristic.findCorners (b :: c :: t)).
  destruct H as [[l1 (Hl1 & Ex1 & Ey1)] [[l2 (Hl2 & Ex2 & Ey2)] Hr]].
  rewrite IH by (simpl; split; [exists l2; tauto | exact Hr]).
  rewrite Ex1, Ey1, Ex2, Ey2, !atan2_scale by assumption.
  replace (Rabs _) with 0 by (rewrite Rminus_diag, Rabs_R0; reflexivity).
  unfold Rltb. destruct (Rlt_dec (PI / 6) 0); [pose proof PI_RGT_0; lra | reflexivity].
Qed.

Lemma distance_scaled (p q d : point) (l : R) :
  0 <= l -> x q - x p = l * x d -> y q - y p = l * y d ->
  distance p q = l * sqrt (x d ^ 2 + y d ^ 2).
Proof.
  intros Hl Ex Ey. unfold distance. rewrite Ex, Ey.
  replace ((l * x d) ^ 2 + (l * y d) ^ 2) with (l ^ 2 * (x d ^ 2 + y d ^ 2)) by ring.
  rewrite sqrt_mult_alt by (apply pow2_ge_0).
  rewrite sqrt_pow2 by exact Hl. reflexivity.
Qed.

Lemma same_direction_span (d : point) (s : list point) :
  same_direction d s -> s <> [] ->
  exists L, 0 <= L /\ ((2 <= length s)%nat -> 0 < L) /\
    x (last_pt s) - x (first s) = L * x d /\
    y (last_pt s) - y (first s) = L * y d /\
    calculateTotalDistance s = L * sqrt (x d ^ 2 + y d ^ 2).
Proof.
  induction s as [|a rest IH]; intros H Hne; [contradiction|].
  destruct rest as [|b t].
  - exists 0. unfold first, last_pt; simpl. repeat split; try lra; try lia.
  - destruct H as [[l (Hl & Ex & Ey)] Hr].
    destruct (IH Hr ltac:(discriminate)) as (L & HL & _ & Lx & Ly & Lt).
    exists (l + L). unfold first, last_pt in *.
    change (nth 0 (b :: t) origin) with b in Lx, Ly.
    change (nth 0 (a :: b :: t) origin) with a.
    change (last (a :: b :: t) origin) with (last (b :: t) origin).
    change (calculateTotalDistance (a :: b :: t)) with
      (distance a b + calculateTotalDistance (b :: t)).
    rewrite (distance_scaled a b d l) by (lra || assumption).
    repeat split; try lra; intros; lra.
Qed.

(** X7: a stroke whose every step goes the same way (a positive multiple of
    one direction) has no corners, so it is not a triangle; and when it has
    at least two points and the direction is not zero it is a line (its
    straightness ratio is 1). *)
Theorem straight_stroke (d : point) (s : list point) (Hs : same_direction d s) :
  Heuristic.findCorners s = [] /\ Heuristic.isTriangle s = false /\
  ((2 <= length s)%nat -> d <> origin -> val (isLine s) = true).
Proof.
  pose proof (same_direction_corners d s Hs) as Hc.
  split; [exact Hc|]. split; [unfold Heuristic.isTriangle; rewrite Hc; reflexivity|].
  intros Hl Hd.
  destruct (same_direction_span d s Hs) as (L & HL & HL2 & Lx & Ly & Lt);
    [destruct s; [simpl in Hl; lia | discriminate]|].
  specialize (HL2 Hl).
  assert (HN : 0 < sqrt (x d ^ 2 + y d ^ 2)).
  { apply sqrt_lt_R0. destruct d as [dx dy]; cbn [x y].
    assert (Hnz : dx <> 0 \/ dy <> 0).
    { destruct (Req_EM_T dx 0) as [E1|E1]; [|left; exact E1].
      destruct (Req_EM_T dy 0) as [E2|E2]; [|right; exact E2].
      exfalso. apply Hd. unfold origin. rewrite E1, E2. reflexivity. }
    pose proof (pow2_ge_0 dx). pose proof (pow2_ge_0 dy).
    destruct Hnz as [Hnz|Hnz];
      [assert (0 < dx ^ 2) by (rewrite <- Rsqr_pow2; apply Rsqr_pos_lt; exact Hnz)
      |assert (0 < dy ^ 2) by (rewrite <- Rsqr_pow2; apply Rsqr_pos_lt; exact Hnz)];
      lra. }
  apply isLine_spec. split; [exact Hl|].
  rewrite Lt, (distance_scaled (first s) (last_pt s) d L HL Lx Ly).
  split; [nra|]. rewrite Rdiv_diag by nra. lra.
Qed.

Lemma straight_stroke_witness :
  same_direction (Pt 1 0) [Pt 0 0; Pt 1 0; Pt 3 0] /\
  val (isLine [Pt 0 0; Pt 1 0; Pt 3 0]) = true.
Proof.
  assert (H : same_direction (Pt 1 0) [Pt 0 0; Pt 1 0; Pt 3 0]).
  { simpl. split; [exists 1 | split; [exists 2 |]]; repeat split; lra. }
  split; [exact H|].
  apply (straight_stroke (Pt 1 0) [Pt 0 0; Pt 1 0; Pt 3 0] H); [simpl; lia|].
  intros E. injection E. lra.
Defined.

(** ** Minimum sizes of the heuristic classifier *)

Lemma short_heads : forallb (fun m => (m - Heuristic.floor_times_07 m <? 5)%nat) (seq 0 14) = true.
Proof. vm_compute. reflexivity. Qed.

Lemma isArrow_needs_14 (s : list point) :
  val (Heuristic.isArrow s) = true -> (14 <= length s)%nat.
Proof.
  unfold Heuristic.isArrow.
  destruct (length s <? 6)%nat; [discriminate|].
  unfold bind. destruct (isLine _) as [l b]. cbn [val snd ret].
  intros H. apply andb_true_iff in H as [_ Ht].
  unfold Heuristic.isTriangle in Ht. apply Nat.leb_le in Ht.
  pose proof (findCorners_length (skipn (Heuristic.floor_times_07 (length s)) s)) as Hc.
  rewrite length_skipn in Hc.
  destruct (Nat.lt_ge_cases (length s) 14) as [Hlt|Hge]; [|exact Hge].
  exfalso. pose proof short_heads as Hs. rewrite forallb_forall in Hs.
  specialize (Hs (length s) ltac:(apply in_seq; lia)). apply Nat.ltb_lt in Hs. lia.
Qed.

(** X8: the arrow test of the heuristic-only canvas rejects every stroke of
    fewer than 14 points: below that the head, the last [n - floor(0.7 n)]
    points, has fewer than 5 points and so fewer than 3 corners. *)
Theorem isArrow_min_length (s : list point) (Hlen : (length s < 14)%nat) :
  val (Heuristic.isArrow s) = false.
Proof.
  apply not_true_iff_false. intros H. apply isArrow_needs_14 in H. lia.
Qed.

Lemma isArrow_min_length_witness :
  (length (repeat (Pt 0 0) 13%nat) < 14)%nat /\
  val (Heuristic.isArrow (repeat (Pt 0 0) 13%nat)) = false.
Proof.
  split; [simpl; lia|].
  apply (isArrow_min_length (repeat (Pt 0 0) 13%nat)). simpl; lia.
Defined.

(** X9: the heuristic-only canvas answers only line, rectangle or freehand
    for strokes of fewer than 6 points, and only line or freehand for
    strokes of fewer than 4 points. *)
Theorem detectShape_short (s : list point) :
  ((length s < 6)%nat ->
   Heuristic.detectShape s =
     if val (isLine s) then TLine
     else if val (Heuristic.isRectangle s) then TRectangle else TFreehand) /\
  ((length s < 4)%nat ->
   Heuristic.detectShape s = if val (isLine s) then TLine else TFreehand).
Proof.
  assert (H6 : (length s < 6)%nat ->
     Heuristic.detectShape s =
       if val (isLine s) then TLine
       else if val (Heuristic.isRectangle s) then TRectangle else TFreehand).
  { intros Hl. unfold Heuristic.detectShape, Heuristic.isCircle, Heuristic.isArrow.
    replace (length s <? 6)%nat with true by (symmetry; apply Nat.ltb_lt; exact Hl).
    reflexivity. }
  split; [exact H6|]. intros Hl. rewrite H6 by lia.
  unfold Heuristic.isRectangle.
  replace (length s <? 4)%nat with true by (symmetry; apply Nat.ltb_lt; exact Hl).
  destruct (val (isLine s)); reflexivity.
Qed.

(** ** Sessions on the heuristic-only canvas *)

Lemma hfold_moves (ps cs : list point) (rs : list (shape_type * list point))
    (os : list HeuristicCanvas.hop) :
  fold_left (fun s q => HeuristicCanvas.handleMouseMove q s) ps
    (HeuristicCanvas.State true cs rs os) =
  HeuristicCanvas.State true (cs ++ ps) rs
    (os ++ flat_map (fun q => map HeuristicCanvas.HOp [LineTo q; StrokeOp]) ps).
Proof.
  revert cs os; induction ps as [|q ps IH]; intros cs os; simpl.
  - rewrite !app_nil_r; reflexivity.
  - unfold HeuristicCanvas.handleMouseMove at 2; simpl.
    rewrite IH, <- !app_assoc; reflexivity.
Qed.

Lemma hdrawStroke_unfold (p : point) (ps : list point) (st : HeuristicCanvas.state) :
  HeuristicCanvas.drawStroke (p :: ps) st =
  HeuristicCanvas.handleMouseUp
    (HeuristicCanvas.State true (p :: ps) (HeuristicCanvas.recognizedShapes st)
       (HeuristicCanvas.ops st ++ map HeuristicCanvas.HOp [BeginPath; MoveTo p] ++
        flat_map (fun q => map HeuristicCanvas.HOp [LineTo q; StrokeOp]) ps)).
Proof.
  unfold HeuristicCanvas.drawStroke, HeuristicCanvas.handleMouseDown.
  rewrite hfold_moves, <- app_assoc; reflexivity.
Qed.

(** A release either changes nothing but the stroke buffer, or records the
    classified stroke and draws it. *)
Lemma hhandleMouseUp_cases (st : HeuristicCanvas.state) :
  (HeuristicCanvas.recognizedShapes (HeuristicCanvas.handleMouseUp st) =
     HeuristicCanvas.recognizedShapes st /\
   HeuristicCanvas.ops (HeuristicCanvas.handleMouseUp st) = HeuristicCanvas.ops st) \/
  (HeuristicCanvas.isDrawing st = true /\
   (2 <= length (HeuristicCanvas.currentStroke st))%nat /\
   Heuristic.detectShape (HeuristicCanvas.currentStroke st) <> TFreehand /\
   HeuristicCanvas.recognizedShapes (HeuristicCanvas.handleMouseUp st) =
     HeuristicCanvas.recognizedShapes st ++
     [(Heuristic.detectShape (HeuristicCanvas.currentStroke st),
       HeuristicCanvas.currentStroke st)] /\
   HeuristicCanvas.ops (HeuristicCanvas.handleMouseUp st) =
     HeuristicCanvas.ops st ++
     HeuristicCanvas.drawRecognizedShape
       (Heuristic.detectShape (HeuristicCanvas.currentStroke st))
       (HeuristicCanvas.currentStroke st)).
Proof.
  unfold HeuristicCanvas.handleMouseUp.
  destruct (HeuristicCanvas.isDrawing st) eqn:Hd; [|left; split; reflexivity].
  destruct (1 <? length (HeuristicCanvas.currentStroke st))%nat eqn:Hl;
    [|left; split; reflexivity].
  apply Nat.ltb_lt in Hl. cbn [andb].
  destruct (shape_type_eqb (Heuristic.detectShape (HeuristicCanvas.currentStroke st)) TFreehand)
    eqn:Hf; [left; split; reflexivity|].
  right. repeat split; try reflexivity; try lia.
  intros E. rewrite E in Hf. discriminate.
Qed.

Definition hentry_ok (e : shape_type * list point) : Prop :=
  fst e = Heuristic.detectShape (snd e) /\ fst e <> TFreehand /\ (2 <= length (snd e))%nat.

(** X10: on the heuristic-only canvas, every entry [{ type, stroke }] that
    [handleMouseUp] records has the type [detectShape] gives its stroke,
    never freehand, and a stroke of at least two points. *)
Theorem heuristic_ledger_entries (strokes : list (list point)) (st : HeuristicCanvas.state)
    (Hst : Forall hentry_ok (HeuristicCanvas.recognizedShapes st)) :
  Forall hentry_ok (HeuristicCanvas.recognizedShapes (HeuristicCanvas.drawStrokes strokes st)).
Proof.
  unfold HeuristicCanvas.drawStrokes. revert st Hst.
  induction strokes as [|s rest IH]; intros st Hst; simpl; [exact Hst|].
  apply IH. destruct s as [|p ps]; [exact Hst|].
  rewrite hdrawStroke_unfold.
  destruct (hhandleMouseUp_cases
              (HeuristicCanvas.State true (p :: ps) (HeuristicCanvas.recognizedShapes st)
                 (HeuristicCanvas.ops st ++ map HeuristicCanvas.HOp [BeginPath; MoveTo p] ++
                  flat_map (fun q => map HeuristicCanvas.HOp [LineTo q; StrokeOp]) ps)))
    as [[E _] | (_ & Hl & Hf & E & _)]; rewrite E; cbn [HeuristicCanvas.recognizedShapes].
  - exact Hst.
  - cbn [HeuristicCanvas.currentStroke] in *.
    apply Forall_app. split; [exact Hst|].
    constructor; [|constructor]. unfold hentry_ok; cbn [fst snd]. tauto.
Qed.

Lemma heuristic_ledger_entries_witness :
  Forall hentry_ok (HeuristicCanvas.recognizedShapes (HeuristicCanvas.State false [] [] [])) /\
  Forall hentry_ok (HeuristicCanvas.recognizedShapes
    (HeuristicCanvas.drawStrokes [[Pt 0 0; Pt 3 4]] (HeuristicCanvas.State false [] [] []))).
Proof.
  split; [constructor|].
  apply heuristic_ledger_entries. constructor.
Defined.

Lemma drawRecognizedShape_no_clear (sh : shape_type) (s : list point) (x0 y0 w h : R) :
  ~ In (HeuristicCanvas.HOp (ClearRect x0 y0 w h)) (HeuristicCanvas.drawRecognizedShape sh s).
Proof.
  unfold HeuristicCanvas.drawRecognizedShape.
  destruct sh; simpl; intuition discriminate.
Qed.

Lemma moves_no_clear (ps : list point) (x0 y0 w h : R) :
  ~ In (HeuristicCanvas.HOp (ClearRect x0 y0 w h))
       (flat_map (fun q => map HeuristicCanvas.HOp [LineTo q; StrokeOp]) ps).
Proof.
  intros H. apply in_flat_map in H as [q [_ Hq]]. simpl in Hq. intuition discriminate.
Qed.

(** X11: the heuristic-only canvas never clears: a session only appends
    rendering calls, none of them [clearRect], so the raw ink of every
    stroke stays on the canvas under the recognized shapes. *)
Theorem heuristic_never_clears (strokes : list (list point)) (st : HeuristicCanvas.state) :
  exists new,
    HeuristicCanvas.ops (HeuristicCanvas.drawStrokes strokes st) = HeuristicCanvas.ops st ++ new /\
    forall x0 y0 w h, ~ In (HeuristicCanvas.HOp (ClearRect x0 y0 w h)) new.
Proof.
  unfold HeuristicCanvas.drawStrokes. revert st.
  induction strokes as [|s rest IH]; intros st; simpl.
  - exists []. split; [rewrite app_nil_r; reflexivity | intros ? ? ? ? []].
  - assert (Hstep : exists new,
              HeuristicCanvas.ops (HeuristicCanvas.drawStroke s st) =
                HeuristicCanvas.ops st ++ new /\
              forall x0 y0 w h, ~ In (HeuristicCanvas.HOp (ClearRect x0 y0 w h)) new).
    { destruct s as [|p ps].
      - exists []. split; [rewrite app_nil_r; reflexivity | intros ? ? ? ? []].
      - rewrite hdrawStroke_unfold.
        destruct (hhandleMouseUp_cases
              (HeuristicCanvas.State true (p :: ps) (HeuristicCanvas.recognizedShapes st)
                 (HeuristicCanvas.ops st ++ map HeuristicCanvas.HOp [BeginPath; MoveTo p] ++
                  flat_map (fun q => map HeuristicCanvas.HOp [LineTo q; StrokeOp]) ps)))
          as [[_ E] | (_ & _ & _ & _ & E)]; rewrite E; cbn [HeuristicCanvas.ops].
        + eexists. split; [reflexivity|]. intros x0 y0 w h H.
          apply in_app_or in H as [H|H]; [simpl in H; intuition discriminate|].
          exact (moves_no_clear ps x0 y0 w h H).
        + eexists. split; [rewrite <- app_assoc; reflexivity|]. intros x0 y0 w h H.
          apply in_app_or in H as [H|H]; [apply in_app_or in H as [H|H]|].
          * simpl in H; intuition discriminate.
          * exact (moves_no_clear ps x0 y0 w h H).
          * exact (drawRecognizedShape_no_clear _ _ x0 y0 w h H). }
    destruct Hstep as [n1 [E1 N1]]. destruct (IH (HeuristicCanvas.drawStroke s st)) as [n2 [E2 N2]].
    exists (n1 ++ n2). split; [rewrite E2, E1, app_assoc; reflexivity|].
    intros x0 y0 w h H. apply in_app_or in H as [H|H]; [exact (N1 _ _ _ _ H) | exact (N2 _ _ _ _ H)].
Qed.

(** ** The stroke style after recognitions *)

Lemma style_app (init : String.string * R) (a b : list op) :
  style init (a ++ b) = style (style init a) b.
Proof. unfold style. apply fold_left_app. Qed.

Lemma style_moves (cur : String.string * R) (ps : list point) :
  style cur (flat_map (fun q => [LineTo q; StrokeOp]) ps) = cur.
Proof.
  revert cur; induction ps as [|q ps IH]; intros cur; [reflexivity|].
  unfold style in *. simpl. apply IH.
Qed.

Lemma style_drawCleanShape (cur : String.string * R) (sh : shape) :
  style cur (OpenCV.drawCleanShape sh) = (black, 2).
Proof.
  unfold OpenCV.drawCleanShape. rewrite !style_app. reflexivity.
Qed.

Lemma style_drawRecognizedShape (width height : nat) (cur : String.string * R)
    (ledger : list shape) (sh : shape) :
  style cur (OpenCV.drawRecognizedShape width height ledger sh) = (black, 2).
Proof.
  unfold OpenCV.drawRecognizedShape. rewrite !style_app. apply style_drawCleanShape.
Qed.

(** A release on the final OpenCV canvas either keeps the ledger and the
    rendering calls, or records the detected shape and redraws. *)
Lemma handleMouseUp_cases (width height : nat) {Contour : Type} (loaded : bool)
    (cv : option (OpenCVLib Contour)) (st : OpenCV.state) :
  (OpenCV.recognizedShapes (OpenCV.handleMouseUp width height loaded cv st) =
     OpenCV.recognizedShapes st /\
   OpenCV.ops (OpenCV.handleMouseUp width height loaded cv st) = OpenCV.ops st) \/
  (not_freehand (OpenCV.detectShape loaded cv (OpenCV.currentStroke st)) = true /\
   OpenCV.recognizedShapes (OpenCV.handleMouseUp width height loaded cv st) =
     OpenCV.recognizedShapes st ++ [OpenCV.detectShape loaded cv (OpenCV.currentStroke st)] /\
   OpenCV.ops (OpenCV.handleMouseUp width height loaded cv st) =
     OpenCV.ops st ++ OpenCV.drawRecognizedShape width height (OpenCV.recognizedShapes st)
                        (OpenCV.detectShape loaded cv (OpenCV.currentStroke st))).
Proof.
  unfold OpenCV.handleMouseUp.
  destruct (OpenCV.isDrawing st && (1 <? length (OpenCV.currentStroke st)))%nat;
    [|left; split; reflexivity].
  unfold not_freehand.
  destruct (negb (shape_type_eqb (type_of (OpenCV.detectShape loaded cv
              (OpenCV.currentStroke st))) TFreehand)) eqn:Hf;
    [right; repeat split; reflexivity | left; split; reflexivity].
Qed.

(** X12: on the final OpenCV canvas the recognized-shape style never leaks
    into the ink: if the stroke style is black at width 2 before a session,
    it is black at width 2 after every gesture, so the next stroke's raw ink
    (drawn with [lineTo]/[stroke] under the current style) is black at
    width 2. *)
Theorem ink_style_restored (width height : nat) (Contour : Type)
    (gestures : list (bool * option (OpenCVLib Contour) * list point))
    (st : OpenCV.state) (init : String.string * R)
    (Hst : style init (OpenCV.ops st) = (black, 2)) :
  style init (OpenCV.ops (OpenCV.drawStrokes width height gestures st)) = (black, 2).
Proof.
  revert st Hst; induction gestures as [|[[l cv] s] rest IH]; intros st Hst; simpl;
    [exact Hst|].
  apply IH. destruct s as [|p ps]; [exact Hst|].
  rewrite drawStroke_unfold.
  destruct (handleMouseUp_cases width height l cv
              (OpenCV.State true (p :: ps) (OpenCV.recognizedShapes st)
                 (OpenCV.ops st ++ [BeginPath; MoveTo p] ++
                  flat_map (fun q => [LineTo q; StrokeOp]) ps)))
    as [[_ E] | (_ & _ & E)]; rewrite E; cbn [OpenCV.ops]; rewrite !style_app.
  - rewrite Hst, style_moves. reflexivity.
  - apply style_drawRecognizedShape.
Qed.

Lemma ink_style_restored_witness :
  style (black, 2) (OpenCV.ops (OpenCV.State false [] [] [])) = (black, 2) /\
  style (black, 2) (OpenCV.ops (OpenCV.drawStrokes 800 600
     [(false, (None : option (OpenCVLib unit)), [Pt 0 0; Pt 3 4])]
     (OpenCV.State false [] [] []))) = (black, 2).
Proof.
  split; [reflexivity|].
  apply (ink_style_restored 800 600 unit). reflexivity.
Defined.

Lemma hstyle_app (init : String.string * R) (a b : list HeuristicCanvas.hop) :
  hstyle init (a ++ b) = hstyle (hstyle init a) b.
Proof. unfold hstyle. apply fold_left_app. Qed.

Lemma hstyle_moves (cur : String.string * R) (ps : list point) :
  hstyle cur (flat_map (fun q => map HeuristicCanvas.HOp [LineTo q; StrokeOp]) ps) = cur.
Proof.
  revert cur; induction ps as [|q ps IH]; intros cur; [reflexivity|].
  unfold hstyle in *. simpl. apply IH.
Qed.

Lemma hstyle_drawRecognizedShape (cur : String.string * R) (sh : shape_type) (s : list point) :
  hstyle cur (HeuristicCanvas.drawRecognizedShape sh s) = (black, 2).
Proof.
  unfold HeuristicCanvas.drawRecognizedShape. rewrite !hstyle_app. reflexivity.
Qed.

(** X13: the same holds on the heuristic-only canvas: [drawRecognizedShape]
    always resets the stroke style to black at width 2, so a session that
    starts in that style leaves it in that style. *)
Theorem heuristic_ink_style_restored (strokes : list (list point))
    (st : HeuristicCanvas.state) (init : String.string * R)
    (Hst : hstyle init (HeuristicCanvas.ops st) = (black, 2)) :
  hstyle init (HeuristicCanvas.ops (HeuristicCanvas.drawStrokes strokes st)) = (black, 2).
Proof.
  unfold HeuristicCanvas.drawStrokes. revert st Hst.
  induction strokes as [|s rest IH]; intros st Hst; simpl; [exact Hst|].
  apply IH. destruct s as [|p ps]; [exact Hst|].
  rewrite hdrawStroke_unfold.
  destruct (hhandleMouseUp_cases
              (HeuristicCanvas.State true (p :: ps) (HeuristicCanvas.recognizedShapes st)
                 (HeuristicCanvas.ops st ++ map HeuristicCanvas.HOp [BeginPath; MoveTo p] ++
                  flat_map (fun q => map HeuristicCanvas.HOp [LineTo q; StrokeOp]) ps)))
    as [[_ E] | (_ & _ & _ & _ & E)]; rewrite E; cbn [HeuristicCanvas.ops];
    rewrite !hstyle_app.
  - rewrite Hst, hstyle_moves. reflexivity.
  - apply hstyle_drawRecognizedShape.
Qed.

Lemma heuristic_ink_style_restored_witness :
  hstyle (black, 2) (HeuristicCanvas.ops (HeuristicCanvas.State false [] [] [])) = (black, 2) /\
  hstyle (black, 2) (HeuristicCanvas.ops (HeuristicCanvas.drawStrokes [[Pt 0 0; Pt 3 4]]
     (HeuristicCanvas.State false [] [] []))) = (black, 2).
Proof.
  split; [reflexivity|].
  apply heuristic_ink_style_restored. reflexivity.
Defined.

(** ** The ledger of the final OpenCV canvas *)

Lemma classifyShape_entry {Contour : Type} (cv : OpenCVLib Contour) (c : Contour) :
  negb (shape_type_eqb (type_of (OpenCV.classifyShape cv c)) TUnknown) = true ->
  ledger_entry_ok (OpenCV.classifyShape cv c).
Proof.
  unfold OpenCV.classifyShape.
  destruct (length (approxPolyDP cv c (2 / 100 * arcLength cv c)) =? 3)%nat eqn:H3.
  - intros _. apply Nat.eqb_eq in H3. exact H3.
  - destruct (length (approxPolyDP cv c (2 / 100 * arcLength cv c)) =? 4)%nat eqn:H4.
    + intros _. apply Nat.eqb_eq in H4. exact H4.
    + destruct (num_gt _ _); [|discriminate].
      destruct (minEnclosingCircle cv c). intros _. exact I.
Qed.

Lemma detectShape_entry {Contour : Type} (loaded : bool) (cv : option (OpenCVLib Contour))
    (s : list point) :
  not_freehand (OpenCV.detectShape loaded cv s) = true ->
  ledger_entry_ok (OpenCV.detectShape loaded cv s).
Proof.
  unfold OpenCV.detectShape.
  destruct (val (isLine s)) eqn:Hl; [intros _; exact Hl|].
  destruct (OpenCV.detectShapes cv s) as [|d ds] eqn:Hd; [discriminate|].
  intros _. unfold OpenCV.detectShapes in Hd. destruct cv as [lib|]; [|discriminate].
  assert (Hin : In d (filter (fun sh => negb (shape_type_eqb (type_of sh) TUnknown))
                       (map (OpenCV.classifyShape lib) (findContours lib s))))
    by (rewrite Hd; left; reflexivity).
  apply filter_In in Hin as [Hm Hu]. apply in_map_iff in Hm as [c [<- _]].
  apply classifyShape_entry. exact Hu.
Qed.

(** X14: every shape the final OpenCV canvas records is a line whose stroke
    [isLine] accepts, a triangle with exactly 3 vertices, a rectangle with
    exactly 4 vertices, or a circle: never freehand nor unknown, so
    [drawCleanShape] always has a shape to draw. *)
Theorem ledger_entries_well_formed (width height : nat) (Contour : Type)
    (gestures : list (bool * option (OpenCVLib Contour) * list point))
    (st : OpenCV.state) (Hst : Forall ledger_entry_ok (OpenCV.recognizedShapes st)) :
  Forall ledger_entry_ok (OpenCV.recognizedShapes (OpenCV.drawStrokes width height gestures st)).
Proof.
  revert st Hst; induction gestures as [|[[l cv] s] rest IH]; intros st Hst; simpl;
    [exact Hst|].
  apply IH. destruct s as [|p ps]; [exact Hst|].
  rewrite drawStroke_unfold.
  destruct (handleMouseUp_cases width height l cv
              (OpenCV.State true (p :: ps) (OpenCV.recognizedShapes st)
                 (OpenCV.ops st ++ [BeginPath; MoveTo p] ++
                  flat_map (fun q => [LineTo q; StrokeOp]) ps)))
    as [[E _] | (Hf & E & _)]; rewrite E; cbn [OpenCV.recognizedShapes OpenCV.currentStroke] in *.
  - exact Hst.
  - apply Forall_app. split; [exact Hst|].
    constructor; [apply detectShape_entry; exact Hf | constructor].
Qed.

Lemma ledger_entries_well_formed_witness :
  Forall ledger_entry_ok (OpenCV.recognizedShapes (OpenCV.State false [] [] [])) /\
  Forall ledger_entry_ok (OpenCV.recognizedShapes (OpenCV.drawStrokes 800 600
     [(false, (None : option (OpenCVLib unit)), [Pt 0 0; Pt 3 4])]
     (OpenCV.State false [] [] []))).
Proof.
  split; [constructor|].
  apply (ledger_entries_well_formed 800 600 unit). constructor.
Defined.

(** ** Leaving the canvas *)

Lemma idle_moves (ps : list point) (st : OpenCV.state) :
  OpenCV.isDrawing st = false ->
  fold_left (fun s q => OpenCV.handleMouseMove q s) ps st = st.
Proof.
  intros H; induction ps as [|q ps IH]; simpl; [reflexivity|].
  unfold OpenCV.handleMouseMove at 2. rewrite H. exact IH.
Qed.

Lemma hidle_moves (ps : list point) (st : HeuristicCanvas.state) :
  HeuristicCanvas.isDrawing st = false ->
  fold_left (fun s q => HeuristicCanvas.handleMouseMove q s) ps st = st.
Proof.
  intros H; induction ps as [|q ps IH]; simpl; [reflexivity|].
  unfold HeuristicCanvas.handleMouseMove at 2. rewrite H. exact IH.
Qed.

(** X15: leaving the canvas cancels the stroke on both canvases: after
    [handleMouseLeave], any further mouse moves and the following release
    change nothing, so the cancelled stroke is neither inked further,
    recognized, nor recorded. *)
Theorem leave_cancels_stroke (width height : nat) (Contour : Type) (loaded : bool)
    (cv : option (OpenCVLib Contour)) (ps : list point) (st : OpenCV.state)
    (ps' : list point) (hst : HeuristicCanvas.state) :
  OpenCV.handleMouseUp width height loaded cv
    (fold_left (fun s q => OpenCV.handleMouseMove q s) ps (OpenCV.handleMouseLeave st)) =
  OpenCV.handleMouseLeave st /\
  HeuristicCanvas.handleMouseUp
    (fold_left (fun s q => HeuristicCanvas.handleMouseMove q s) ps'
       (HeuristicCanvas.handleMouseLeave hst)) =
  HeuristicCanvas.handleMouseLeave hst.
Proof.
  split.
  - rewrite idle_moves by reflexivity. reflexivity.
  - rewrite hidle_moves by reflexivity. reflexivity.
Qed.

(** ** Reading polygon vertices back from OpenCV *)

Lemma getVertices_cons (v : Z * Z) (vs : list (Z * Z)) (rows : nat) :
  getVertices (S rows) (flatten_vertices (v :: vs)) =
  (Some (fst v), Some (snd v)) :: getVertices rows (flatten_vertices vs).
Proof.
  unfold getVertices. cbn [seq map]. rewrite <- seq_shift, map_map.
  f_equal. apply map_ext. intros i.
  replace (2 * S i)%nat with (S (S (2 * i))) by lia.
  replace (2 * S i + 1)%nat with (S (S (2 * i + 1))) by lia.
  reflexivity.
Qed.

(** X16: [getVertices] reads back exactly the vertices laid out pairwise in
    [data32S]: for a buffer holding the [x, y] pairs of [vs] and
    [rows = vs.length], it returns every vertex, in order, with both
    coordinates defined. *)
Theorem getVertices_roundtrip (vs : list (Z * Z)) :
  getVertices (length vs) (flatten_vertices vs) =
  map (fun v => (Some (fst v), Some (snd v))) vs.
Proof.
  induction vs as [|v vs IH]; [reflexivity|].
  cbn [length]. rewrite getVertices_cons, IH. reflexivity.
Qed.

(** X17: [getVertices] returns [rows] vertices, and all their coordinates are
    defined exactly when the buffer holds at least [2 * rows] numbers;
    otherwise some coordinate reads past the end and is [undefined]. *)
Theorem getVertices_defined (rows : nat) (data32S : list Z) :
  length (getVertices rows data32S) = rows /\
  ((forall c, In c (getVertices rows data32S) -> fst c <> None /\ snd c <> None) <->
   (2 * rows <= length data32S)%nat).
Proof.
  split; [unfold getVertices; rewrite length_map, length_seq; reflexivity|].
  unfold getVertices. split.
  - intros H. destruct rows as [|r]; [lia|].
    destruct (H (nth_error data32S (2 * r), nth_error data32S (2 * r + 1))) as [_ H2].
    + apply in_map_iff. exists r. split; [reflexivity|]. apply in_seq. lia.
    + cbn [snd] in H2. destruct (Nat.lt_ge_cases (2 * r + 1) (length data32S)) as [Hl|Hl];
        [lia|]. exfalso. apply H2. apply nth_error_None. exact Hl.
  - intros Hlen c Hc. apply in_map_iff in Hc as [i [<- Hi]]. apply in_seq in Hi.
    cbn [fst snd]. split; intros E; apply nth_error_None in E; lia.
Qed.

(** ** The background grid *)

(** X18: the grid drawn along a side of [n] pixels has a line at every
    multiple of [GRID_SIZE] from 0 up to and including [n] (a line on the
    edge itself when [n] is a multiple), and no other line. *)
Theorem gridLines_positions (n : nat) (g : R) :
  In g (OpenCV.gridLines n) <-> exists k, g = INR (GRID_SIZE * k) /\ (GRID_SIZE * k <= n)%nat.
Proof.
  unfold OpenCV.gridLines. rewrite in_map_iff.
  pose proof (Nat.div_mod n GRID_SIZE) as Hd.
  pose proof (Nat.mod_upper_bound n GRID_SIZE) as Hm.
  unfold GRID_SIZE in *.
  split.
  - intros [k [<- Hk]]. apply in_seq in Hk. exists k. split; [reflexivity|].
    specialize (Hd ltac:(discriminate)). specialize (Hm ltac:(discriminate)). lia.
  - intros [k [-> Hk]]. exists k. split; [reflexivity|]. apply in_seq.
    specialize (Hd ltac:(discriminate)). specialize (Hm ltac:(discriminate)). lia.
Qed.

(** ** What the final OpenCV canvas shows *)

Lemma no_clear_app (a b : list op) : no_clear a -> no_clear b -> no_clear (a ++ b).
Proof.
  intros Ha Hb x0 y0 w h H. apply in_app_or in H as [H|H]; [exact (Ha _ _ _ _ H)|exact (Hb _ _ _ _ H)].
Qed.

Lemma no_clear_stroke (p : point) (ps : list point) :
  no_clear ([BeginPath; MoveTo p] ++ flat_map (fun q => [LineTo q; StrokeOp]) ps).
Proof.
  apply no_clear_app.
  - intros x0 y0 w h H. simpl in H. intuition discriminate.
  - intros x0 y0 w h H. apply in_flat_map in H as [q [_ Hq]]. simpl in Hq.
    intuition discriminate.
Qed.

(** X19: on the final OpenCV canvas, after any session the rendering is a
    faithful picture of the ledger: if the canvas showed the ledger before,
    then after every gesture the last clear of the whole surface is
    followed by the grid, every recorded shape in insertion order, and then
    only the raw ink of strokes that were not recognized. No recorded
    shape is ever lost from the picture. *)
Theorem canvas_shows_ledger (width height : nat) (Contour : Type)
    (gestures : list (bool * option (OpenCVLib Contour) * list point))
    (st : OpenCV.state) (Hst : shows_ledger width height st) :
  shows_ledger width height (OpenCV.drawStrokes width height gestures st).
Proof.
  revert st Hst; induction gestures as [|[[l cv] s] rest IH]; intros st Hst; simpl;
    [exact Hst|].
  apply IH. destruct s as [|p ps]; [exact Hst|].
  rewrite drawStroke_unfold.
  destruct (handleMouseUp_cases width height l cv
              (OpenCV.State true (p :: ps) (OpenCV.recognizedShapes st)
                 (OpenCV.ops st ++ [BeginPath; MoveTo p] ++
                  flat_map (fun q => [LineTo q; StrokeOp]) ps)))
    as [[E1 E2] | (_ & E1 & E2)]; unfold shows_ledger; rewrite E1, E2;
    cbn [OpenCV.recognizedShapes OpenCV.ops OpenCV.currentStroke].
  - destruct Hst as [[Hr Hc] | (pre & ink & Ho & Hi)].
    + left. split; [exact Hr|]. apply no_clear_app; [exact Hc|apply no_clear_stroke].
    + right. exists pre, (ink ++ [BeginPath; MoveTo p] ++
                           flat_map (fun q => [LineTo q; StrokeOp]) ps).
      split; [|apply no_clear_app; [exact Hi|apply no_clear_stroke]].
      rewrite Ho. rewrite <- !app_assoc. reflexivity.
  - right. exists (OpenCV.ops st ++ [BeginPath; MoveTo p] ++
                    flat_map (fun q => [LineTo q; StrokeOp]) ps), [].
    split; [|intros x0 y0 w h []].
    unfold OpenCV.drawRecognizedShape. rewrite flat_map_app. cbn [flat_map].
    rewrite !app_nil_r, <- !app_assoc. reflexivity.
Qed.

Lemma canvas_shows_ledger_witness :
  shows_ledger 800 600 (OpenCV.State false [] [] []) /\
  shows_ledger 800 600 (OpenCV.drawStrokes 800 600
     [(false, (None : option (OpenCVLib unit)), [Pt 0 0; Pt 3 4])]
     (OpenCV.State false [] [] [])).
Proof.
  split; [left; split; [reflexivity|intros x0 y0 w h []]|].
  apply (canvas_shows_ledger 800 600 unit).
  left; split; [reflexivity|intros x0 y0 w h []].
Defined.
